(** * Blog backend with Passport: a shallow embedding of the authentication
      strategy, the User model hooks and the Express route handlers.

    Sources embedded here:
    - [app/models/user.js]  (three revisions of the User model),
    - [app/models/post.js], [app/models/comment.js],
    - [app/index.js]        (LocalStrategy callback and the routes),
    - the two migrations    (columns and unique constraints).

    Everything asynchronous in the source is a promise chain that runs to
    completion inside one request; a promise is modelled as a function from
    the world to its settlement, the world it leaves, and the events it
    caused (calls of [done], responses written to [res], bcrypt calls,
    errors raised). *)

From stdpp Require Import gmap strings list fin_maps pretty.
From Stdlib Require Import ZArith.

Local Open Scope Z_scope.
Local Open Scope string_scope.

(** ** JavaScript values and errors *)

Inductive jsval :=
| JUndefined
| JNull
| JBool (b : bool)
| JNum (n : Z)
| JStr (s : string).

#[global] Instance jsval_eq_dec : EqDecision jsval.
Proof. solve_decision. Defined.

(** A plain object whose property values are primitives: [req.body],
    [model.attributes], a table row. *)
Abbreviation attrs := (gmap string jsval).

Inductive js_error :=
| TypeError (msg : string)
| BcryptArgumentError
| DriverError (msg : string)
| NoRowsUpdated.

#[global] Instance js_error_eq_dec : EqDecision js_error.
Proof. solve_decision. Defined.

(** JSON as written by [res.send]. *)
#[local] Unset Elimination Schemes.
Inductive json :=
| JVal (v : jsval)
| JObject (fields : list (string * json))
| JArray (items : list json).
#[local] Set Elimination Schemes.

Inductive response :=
| Status (code : Z)
| Json (body : json).

(** ** Bookshelf models *)

Inductive model_class := User | Post | Comment.

#[global] Instance model_class_eq_dec : EqDecision model_class.
Proof. solve_decision. Defined.

Definition tableName (c : model_class) : string :=
  match c with
  | User => "users"
  | Post => "posts"
  | Comment => "comments"
  end.

Record Model := { cls : model_class; attributes : attrs }.

#[global] Instance Model_eq_dec : EqDecision Model.
Proof. solve_decision. Defined.

Definition forge (c : model_class) (a : attrs) : Model :=
  {| cls := c; attributes := a |}.

(** [model.id] mirrors the [id] attribute. *)
Definition model_id (m : Model) : jsval :=
  default JUndefined (attributes m !! "id").

(** [model.set(key, value)] *)
Definition model_set (k : string) (x : jsval) (m : Model) : Model :=
  {| cls := cls m; attributes := <[k := x]> (attributes m) |}.

(** The three revisions of [app/models/user.js], in file order: the first
    declares [validatePassword] as an arrow function, the second has neither
    hook nor password methods, the third declares [validatePassword] with
    [function]. *)
Inductive user_variant := UserArrow | UserPlain | UserFunction.

(** ** passport: the arguments of [done] and what passport-local makes of them *)

Inductive done_user :=
| DFalse
| DUsr (usr : option Model)     (* [None] is [null] *)
| DAbsent.                      (* argument not passed *)

Inductive done_call := Done (err : option js_error) (user : done_user).

Inductive AuthenticationOutcome :=
| Authenticated (identity : Model)
| Rejected
| Errored (cause : js_error).

(** passport-local's [verified(err, user)]: an error wins, then a falsy user
    fails, anything else succeeds. *)
Definition verified (d : done_call) : AuthenticationOutcome :=
  match d with
  | Done (Some e) _ => Errored e
  | Done None (DUsr (Some m)) => Authenticated m
  | Done None _ => Rejected
  end.

(** ** The world *)

Record table := { rows : list attrs; serial : Z }.

Inductive driver_state := Healthy | Failing (e : js_error).

Record world := {
  driver : driver_state;      (* does the next query reach the database *)
  users : table;
  posts : table;
  comments : table;
  session : attrs;            (* [req.session] of the client *)
  entropy : nat -> string;    (* salts bcrypt will draw *)
  draws : nat;                (* how many it has drawn *)
  now : Z                     (* clock used for timestamps *)
}.

Definition table_of (c : model_class) (w : world) : table :=
  match c with
  | User => users w
  | Post => posts w
  | Comment => comments w
  end.

Definition with_table (c : model_class) (t : table) (w : world) : world :=
  {| driver := driver w;
     users := match c with User => t | _ => users w end;
     posts := match c with Post => t | _ => posts w end;
     comments := match c with Comment => t | _ => comments w end;
     session := session w; entropy := entropy w; draws := draws w;
     now := now w |}.

Definition draw_salt (w : world) : string * world :=
  (entropy w (draws w),
   {| driver := driver w; users := users w; posts := posts w;
      comments := comments w; session := session w; entropy := entropy w;
      draws := S (draws w); now := now w |}).

(** ** Events and promises *)

Inductive event :=
| EvRaised (e : js_error)                    (* a throw or a rejection at its origin *)
| EvBcryptHash (data : jsval) (rounds : Z)
| EvBcryptCompare (data hash : jsval)
| EvDone (d : done_call)
| EvSend (r : response)
| EvConsoleError (e : js_error).

Inductive settled (A : Type) :=
| Fulfilled (a : A)
| RejectedWith (e : js_error).
Arguments Fulfilled {A} a.
Arguments RejectedWith {A} e.

Record run (A : Type) := Run {
  result : settled A;
  final : world;
  events : list event
}.
Arguments Run {A} _ _ _.
Arguments result {A} _.
Arguments final {A} _.
Arguments events {A} _.

Definition promise (A : Type) := world -> run A.

Definition resolve {A} (a : A) : promise A :=
  fun w => Run (Fulfilled a) w [].

(** [throw e] inside a callback, or [reject(e)] inside an executor. *)
Definition throw {A} (e : js_error) : promise A :=
  fun w => Run (RejectedWith e) w [EvRaised e].

Definition emit (ev : event) : promise unit :=
  fun w => Run (Fulfilled tt) w [ev].

(** [p.then(f)] *)
Definition then_ {A B} (p : promise A) (f : A -> promise B) : promise B :=
  fun w =>
    let r := p w in
    match result r with
    | Fulfilled a =>
        let r' := f a (final r) in
        Run (result r') (final r') (events r ++ events r')
    | RejectedWith e => Run (RejectedWith e) (final r) (events r)
    end.

(** [p.catch(h)] *)
Definition catch_ {A} (p : promise A) (h : js_error -> promise A) : promise A :=
  fun w =>
    let r := p w in
    match result r with
    | Fulfilled a => r
    | RejectedWith e =>
        let r' := h e (final r) in
        Run (result r') (final r') (events r ++ events r')
    end.

(** A promise that is started inside a callback and not returned from it:
    its effects happen, its settlement reaches nobody. *)
Definition detached {A} (p : promise A) : promise unit :=
  fun w => let r := p w in Run (Fulfilled tt) (final r) (events r).

Notation "'await' x := p 'in' q" := (then_ p (fun x => q))
  (at level 10, x name, p at level 100, q at level 200,
   format "'[v' 'await'  x  :=  p  'in' '/' q ']'").

(** Reading a response body: does the object [j] carry property [k] with
    value [x]; is there a property named [password] anywhere in [j]. *)
Definition has_field (k : string) (x : json) (j : json) : Prop :=
  match j with
  | JObject fs => (k, x) ∈ fs
  | _ => False
  end.

Fixpoint exposes_password (j : json) : bool :=
  match j with
  | JVal _ => false
  | JObject fs =>
      existsb (fun kv => bool_decide (kv.1 = "password") || exposes_password kv.2) fs
  | JArray xs => existsb exposes_password xs
  end.

Definition done_calls (evs : list event) : list done_call :=
  omap (fun ev => match ev with EvDone d => Some d | _ => None end) evs.

Definition responses (evs : list event) : list response :=
  omap (fun ev => match ev with EvSend r => Some r | _ => None end) evs.

Definition raised (evs : list event) : list js_error :=
  omap (fun ev => match ev with EvRaised e => Some e | _ => None end) evs.

Definition compare_calls (evs : list event) : list (jsval * jsval) :=
  omap (fun ev => match ev with EvBcryptCompare d h => Some (d, h) | _ => None end) evs.

(** ** bcrypt

    The hashing primitive is a native module outside the repository; the
    model code is parametric in it.  [hashpw salt rounds data] is the hash
    string for a given salt, [checkpw data hash] the comparison. *)

Class Bcrypt := {
  hashpw : string -> Z -> string -> string;
  checkpw : string -> string -> bool
}.

(** What the model code relies on: a hash is accepted for its own plaintext
    and is never the plaintext itself. *)
Class BcryptContract (B : Bcrypt) : Prop := {
  checkpw_hashpw : forall salt rounds p, checkpw p (hashpw salt rounds p) = true;
  hashpw_fresh : forall salt rounds p, hashpw salt rounds p <> p
}.

Section WithBcrypt.
Context {B : Bcrypt}.

(** [bcrypt.hash(data, rounds, cb)]: draws a salt; anything but a string is
    reported to the callback as an error. *)
Definition bcrypt_hash (data : jsval) (rounds : Z) : promise string :=
  await _ := emit (EvBcryptHash data rounds) in
  match data with
  | JStr p =>
      fun w => let (salt, w') := draw_salt w in
               Run (Fulfilled (hashpw salt rounds p)) w' []
  | _ => throw BcryptArgumentError
  end.

(** [bcrypt.compare(data, hash, cb)] *)
Definition bcrypt_compare (data hash : jsval) : promise bool :=
  await _ := emit (EvBcryptCompare data hash) in
  match data, hash with
  | JStr p, JStr h => resolve (checkpw p h)
  | _, _ => throw BcryptArgumentError
  end.

(** ** The database behind knex

    Schema from the migrations.  A row holds the columns that were given a
    value.  The engine is taken to be dynamically typed: a query parameter
    equals a stored value when they are the same value, or one is the
    decimal spelling of the other (route parameters are strings, ids are
    numbers). *)

Definition columns (c : model_class) : list string :=
  match c with
  | User => ["id"; "name"; "username"; "email"; "created_at"; "updated_at";
             "password"]
  | Post => ["id"; "title"; "body"; "author"; "created_at"; "updated_at"]
  | Comment => ["id"; "body"; "user_id"; "post_id"; "created_at"; "updated_at"]
  end.

Definition unique_columns (c : model_class) : list string :=
  match c with
  | User => ["username"; "email"]
  | _ => []
  end.

Definition sql_eq (param stored : jsval) : bool :=
  match param, stored with
  | JStr s, JNum n => bool_decide (s = pretty n)
  | JNum n, JStr s => bool_decide (s = pretty n)
  | JNull, _ | JUndefined, _ | _, JNull | _, JUndefined => false
  | _, _ => bool_decide (param = stored)
  end.

(** [where k1 = v1 and k2 = v2 ...] *)
Definition row_matches (cond row : attrs) : bool :=
  forallb (fun kv => match row !! kv.1 with
                     | Some x => sql_eq kv.2 x
                     | None => false
                     end) (map_to_list cond).

Definition is_nullish (o : option jsval) : bool :=
  match o with
  | None | Some JNull | Some JUndefined => true
  | Some _ => false
  end.

(** Does [row] fit the table next to the rows [others]: known columns only,
    and no unique column repeats a value. *)
Definition admissible (c : model_class) (row : attrs) (others : list attrs) : bool :=
  forallb (fun kv => bool_decide (kv.1 ∈ columns c)) (map_to_list row)
  && forallb (fun k => is_nullish (row !! k)
                       || forallb (fun r => negb (bool_decide (r !! k = row !! k))) others)
             (unique_columns c).

Definition query {A} (q : world -> A) : promise A :=
  fun w => match driver w with
           | Failing e => throw e w
           | Healthy => Run (Fulfilled (q w)) w []
           end.

(** [model.fetch()]: first row matching the attributes; the row's columns
    are set on the model.  When no row matches the promise resolves with
    [null] (the behaviour the handlers' null checks are written for). *)
Definition fetch (m : Model) : promise (option Model) :=
  query (fun w =>
    (fun row => forge (cls m) (row ∪ attributes m))
      <$> List.find (row_matches (attributes m)) (rows (table_of (cls m) w))).

(** [Model.fetchAll()] and [Model.collection().fetch()] *)
Definition fetchAll (c : model_class) : promise (list Model) :=
  query (fun w => forge c <$> rows (table_of c w)).

Definition sync_insert (m : Model) : promise Model :=
  fun w =>
    match driver w with
    | Failing e => throw e w
    | Healthy =>
        let t := table_of (cls m) w in
        if admissible (cls m) (attributes m) (rows t) then
          let m' := model_set "id" (JNum (serial t + 1)) m in
          Run (Fulfilled m')
              (with_table (cls m)
                 {| rows := rows t ++ [attributes m']; serial := serial t + 1 |} w)
              []
        else throw (DriverError "constraint violation") w
    end.

Definition sync_update (m : Model) : promise Model :=
  fun w =>
    match driver w with
    | Failing e => throw e w
    | Healthy =>
        let t := table_of (cls m) w in
        let hit := fun r => row_matches {[ "id" := model_id m ]} r in
        let rest := List.filter (fun r => negb (hit r)) (rows t) in
        if negb (existsb hit (rows t)) then throw NoRowsUpdated w
        else if admissible (cls m) (attributes m) rest then
          Run (Fulfilled m)
              (with_table (cls m)
                 {| rows := (fun r => if hit r then delete "id" (attributes m) ∪ r
                                      else r) <$> rows t;
                    serial := serial t |} w)
              []
        else throw (DriverError "constraint violation") w
    end.

(** [hasTimestamps: true] *)
Definition timestamp (creating : bool) (m : Model) : promise Model :=
  fun w =>
    let m1 := model_set "updated_at" (JNum (now w)) m in
    Run (Fulfilled (if creating then model_set "created_at" (JNum (now w)) m1
                    else m1)) w [].

(** [model.save()]: a model without an id is inserted, after the listeners
    of ['creating'] have settled; a model with an id updates its row.  The
    listeners are the ones [initialize] registered. *)
Definition isNew (m : Model) : bool := is_nullish (attributes m !! "id").

(** ** app/models/user.js *)

(** [encryptPassword(model, attrs, options)]: resolves with the hash, after
    [model.set('password', hash)]; the model handed back is the mutated one. *)
Definition encryptPassword (model : Model) : promise (string * Model) :=
  await hash := bcrypt_hash (default JUndefined (attributes model !! "password")) 10 in
  resolve (hash, model_set "password" (JStr hash) model).

(** [initialize]: [this.on('creating', this.encryptPassword)] in the first
    and third revision of the User model, nothing elsewhere. *)
Definition initialize (v : user_variant) (c : model_class)
  : list (Model -> promise (string * Model)) :=
  match c, v with
  | User, UserArrow | User, UserFunction => [encryptPassword]
  | _, _ => []
  end.

(** [triggerThen('creating', model, ...)]: the listeners run in turn on the
    one model object; a rejection stops the save. *)
Fixpoint trigger (ls : list (Model -> promise (string * Model))) (m : Model)
  : promise Model :=
  match ls with
  | [] => resolve m
  | l :: ls' => await r := l m in trigger ls' r.2
  end.

Definition save (v : user_variant) (m : Model) : promise Model :=
  if isNew m then
    await m1 := timestamp true m in
    await m2 := trigger (initialize v (cls m)) m1 in
    sync_insert m2
  else
    await m1 := timestamp false m in
    sync_update m1.

(** What [this] is bound to where [let self = this] runs: the model the
    method was called on inside a [function], the module's [exports] object
    (which has no [attributes] property) inside an arrow function at module
    level. *)
Inductive js_this :=
| ThisModel (m : Model)
| ThisModuleExports.

(** [self.attributes]; [None] is [undefined]. *)
Definition this_attributes (self : js_this) : option attrs :=
  match self with
  | ThisModel m => Some (attributes m)
  | ThisModuleExports => None
  end.

(** The promise executor shared by both declarations of [validatePassword]:
    [const hash = self.attributes.password; bcrypt.compare(...)]. *)
Definition validate_executor (self : js_this) (suppliedPassword : string)
  : promise bool :=
  match this_attributes self with
  | None => throw (TypeError "Cannot read property 'password' of undefined")
  | Some a =>
      let hash := default JUndefined (a !! "password") in
      bcrypt_compare (JStr suppliedPassword) hash
  end.

(** The [validatePassword] property of a User model; [None] where the
    revision does not define it. *)
Definition validatePassword (v : user_variant) (this : Model)
    (suppliedPassword : string) : option (promise bool) :=
  match v with
  | UserArrow =>
      let self := ThisModuleExports in
      Some (validate_executor self suppliedPassword)
  | UserPlain => None
  | UserFunction =>
      let self := ThisModel this in
      Some (validate_executor self suppliedPassword)
  end.

(** ** app/index.js: the LocalStrategy callback *)

Definition done (err : option js_error) (user : done_user) : promise unit :=
  emit (EvDone (Done err user)).

(** The expression [usr.validatePassword(password)]: it throws on [null]
    and on a missing method, otherwise it yields the promise. *)
Definition call_validatePassword (v : user_variant) (usr : option Model)
    (password : string) : js_error + promise bool :=
  match usr with
  | None => inl (TypeError "Cannot read property 'validatePassword' of null")
  | Some m =>
      match validatePassword v m password with
      | None => inl (TypeError "usr.validatePassword is not a function")
      | Some p => inr p
      end
  end.

(** [if (usr)]: [null] is falsy, a model object is truthy. *)
Definition truthy (usr : option Model) : bool :=
  match usr with
  | Some _ => true
  | None => false
  end.

Definition LocalStrategy (v : user_variant) (username password : string)
  : promise unit :=
  catch_
    (then_ (fetch (forge User {[ "username" := JStr username ]}))
       (fun usr =>
          if truthy usr then done None DFalse
          else
            match call_validatePassword v usr password with
            | inl e => throw e
            | inr p =>
                detached
                  (then_ p (fun valid =>
                     if negb valid then done None DFalse
                     else done None (DUsr usr)))
            end))
    (fun err => done (Some err) DAbsent).

(** The outcome passport-local derives from a run of the callback. *)
Definition authenticate (v : user_variant) (username password : string)
    (w : world) : list AuthenticationOutcome :=
  verified <$> done_calls (events (LocalStrategy v username password w)).

(** ** app/index.js: the routes *)

Definition sendStatus (code : Z) : promise unit := emit (EvSend (Status code)).
Definition send (j : json) : promise unit := emit (EvSend (Json j)).
Definition console_error (e : js_error) : promise unit := emit (EvConsoleError e).

Definition object_json (a : attrs) : json :=
  JObject ((fun kv => (kv.1, JVal kv.2)) <$> map_to_list a).

(** [model.toJSON()] without loaded relations: the attributes. *)
Definition toJSON (m : Model) : json := object_json (attributes m).

(** [_.isEmpty] on [null] or a model instance, and on a parsed body. *)
Definition isEmpty_model (usr : option Model) : bool :=
  match usr with
  | None => true
  | Some _ => false
  end.

Definition isEmpty (body : attrs) : bool := bool_decide (body = ∅).

Definition get_user (id : string) : promise unit :=
  catch_
    (then_ (fetch (forge User {[ "id" := JStr id ]}))
       (fun usr =>
          if isEmpty_model usr then sendStatus 404
          else send (from_option toJSON (JVal JNull) usr)))
    (fun error => then_ (console_error error) (fun _ => sendStatus 500)).

Definition get_users : promise unit :=
  then_ (fetchAll User) (fun users => send (JArray (toJSON <$> users))).

Definition post_user (v : user_variant) (body : attrs) : promise unit :=
  if isEmpty body then sendStatus 400
  else
    catch_
      (then_ (save v (forge User body))
         (fun usr => send (object_json {[ "id" := model_id usr ]})))
      (fun error => then_ (console_error error) (fun _ => sendStatus 500)).

Definition get_posts : promise unit :=
  catch_
    (then_ (fetchAll Post) (fun posts => send (JArray (toJSON <$> posts))))
    (fun error => sendStatus 500).

(** [fetch({withRelated: ['author', 'comments']})]: the post, then the user
    its [author] column points to and the comments whose [post_id] is the
    post's id; the serialised relations are set over the attributes.  No row,
    no relations: the promise resolves with [null]. *)
Definition with_related (post : Model) : promise json :=
  await author := fetch (forge User {[ "id" := default JNull (attributes post !! "author") ]}) in
  await comments := fetchAll Comment in
  let mine := List.filter
                (fun c => row_matches {[ "post_id" := model_id post ]} (attributes c))
                comments in
  resolve
    (JObject (((fun kv => (kv.1, JVal kv.2))
                 <$> map_to_list (delete "author" (attributes post)))
              ++ [("author", from_option toJSON (JObject []) author);
                  ("comments", JArray (toJSON <$> mine))])).

Definition fetch_withRelated (m : Model) : promise (option json) :=
  await post := fetch m in
  match post with
  | None => resolve None
  | Some p => await j := with_related p in resolve (Some j)
  end.

Definition get_post (id : string) : promise unit :=
  catch_
    (then_ (fetch_withRelated (forge Post {[ "id" := JStr id ]}))
       (fun post =>
          if bool_decide (post = None) then sendStatus 404
          else send (default (JVal JNull) post)))
    (fun error => then_ (console_error error) (fun _ => sendStatus 500)).

Definition post_post (v : user_variant) (body : attrs) : promise unit :=
  if isEmpty body then sendStatus 400
  else
    catch_
      (then_ (save v (forge Post body))
         (fun post => send (object_json {[ "id" := model_id post ]})))
      (fun error => then_ (console_error error) (fun _ => sendStatus 500)).

Definition post_comment (v : user_variant) (body : attrs) : promise unit :=
  if isEmpty body then sendStatus 400
  else
    catch_
      (then_ (save v (forge Comment body))
         (fun comment => send (object_json {[ "id" := model_id comment ]})))
      (fun error => then_ (console_error error) (fun _ => sendStatus 500)).

(** The public interface: one constructor per route of [app/index.js]. *)
Inductive request :=
| GET_user (id : string)
| GET_users
| POST_user (body : attrs)
| GET_posts
| GET_post (id : string)
| POST_post (body : attrs)
| POST_comment (body : attrs).

Definition app (v : user_variant) (req : request) : promise unit :=
  match req with
  | GET_user id => get_user id
  | GET_users => get_users
  | POST_user body => post_user v body
  | GET_posts => get_posts
  | GET_post id => get_post id
  | POST_post body => post_post v body
  | POST_comment body => post_comment v body
  end.

End WithBcrypt.

(** ** A stand-in hasher and sample worlds

    Used to run the model on concrete inputs.  The stand-in keeps the shape
    of bcrypt's interface (a salted string, checked by recomputation of its
    prefix); it is not the bcrypt function. *)

Definition demo_hashpw (salt : string) (rounds : Z) (p : string) : string :=
  ("$2a$" +:+ p +:+ "$") +:+ salt.

Definition demo_checkpw (p h : string) : bool :=
  String.prefix ("$2a$" +:+ p +:+ "$") h.

Definition demo_bcrypt : Bcrypt :=
  {| hashpw := demo_hashpw; checkpw := demo_checkpw |}.

Definition empty_table : table := {| rows := []; serial := 0 |}.

Definition fresh_world : world :=
  {| driver := Healthy; users := empty_table; posts := empty_table;
     comments := empty_table; session := ∅;
     entropy := fun n => "salt" +:+ pretty n; draws := 0%nat; now := 1464000000 |}.

Definition alice_body : attrs :=
  {[ "username" := JStr "alice"; "password" := JStr "correct" ]}.

(** The world after [POST /user] with alice's credentials on the third
    revision of the model. *)
Definition alice_world : world :=
  final (post_user (B := demo_bcrypt) UserFunction alice_body fresh_world).

Definition alice_hash : string := demo_hashpw "salt0" 10 "correct".

Definition alice_row : attrs :=
  {[ "id" := JNum 1; "username" := JStr "alice"; "password" := JStr alice_hash;
     "created_at" := JNum 1464000000; "updated_at" := JNum 1464000000 ]}.

Definition bob_body : attrs :=
  {[ "username" := JStr "bob"; "password" := JStr "plain123" ]}.

Definition broken_world : world :=
  {| driver := Failing (DriverError "connection refused");
     users := users alice_world; posts := empty_table; comments := empty_table;
     session := ∅; entropy := entropy fresh_world; draws := 1%nat;
     now := 1464000000 |}.

(** ** Further observations on a run and on the tables *)

Definition hash_calls (evs : list event) : list (jsval * Z) :=
  omap (fun ev => match ev with EvBcryptHash d r => Some (d, r) | _ => None end) evs.

Definition same_tables (w w' : world) : Prop :=
  users w' = users w /\ posts w' = posts w /\ comments w' = comments w.

(** What the [increments] primary key gives a table: every row has a
    numeric [id] no greater than the last one handed out, and no two rows
    share one. *)
Definition table_ok (t : table) : Prop :=
  Forall (fun r : attrs => exists n, r !! "id" = Some (JNum n) /\ n <= serial t) (rows t)
  /\ NoDup ((fun r : attrs => r !! "id") <$> rows t).

Definition world_ok (w : world) : Prop :=
  forall c, table_ok (table_of c w).

(** A promise that leaves the world as it found it; one that writes no
    response; one that writes at most to the table of class [c] and to the
    count of salts drawn. *)
Definition read_only {A} (p : promise A) : Prop :=
  forall w, final (p w) = w.

Definition silent {A} (p : promise A) : Prop :=
  forall w, responses (events (p w)) = [].

Definition confined_to (c : model_class) (w w' : world) : Prop :=
  driver w' = driver w /\ session w' = session w /\ entropy w' = entropy w
  /\ now w' = now w
  /\ forall c', c' <> c -> table_of c' w' = table_of c' w.

(** The request a client sends to create a record of class [c]. *)
Definition POST_of (c : model_class) (body : attrs) : request :=
  match c with
  | User => POST_user body
  | Post => POST_post body
  | Comment => POST_comment body
  end.

(** ** migrations/: the schema the knex migrations build

    A schema maps a table name to its columns, in order.  A builder call
    fails ([None]) where the database would refuse the statement: altering
    or dropping a table that is not there, adding a column that exists,
    dropping one that does not. *)

Inductive column_type :=
| TIncrements
| TString (len : Z)
| TInteger
| TDatetime.

Record column := {
  col_name : string;
  col_type : column_type;
  col_primary : bool;
  col_unique : bool;
  col_references : option string
}.

Abbreviation schema := (gmap string (list column)).

(** Column builders: [tbl.increments(name)], [tbl.string(name, len)] (255
    when no length is given), [tbl.integer(name)], and the modifiers
    [.primary()], [.unique()], [.references(target)]. *)
Definition increments (name : string) : column :=
  {| col_name := name; col_type := TIncrements; col_primary := false;
     col_unique := false; col_references := None |}.

Definition string_ (name : string) (len : Z) : column :=
  {| col_name := name; col_type := TString len; col_primary := false;
     col_unique := false; col_references := None |}.

Definition integer (name : string) : column :=
  {| col_name := name; col_type := TInteger; col_primary := false;
     col_unique := false; col_references := None |}.

Definition primary (c : column) : column :=
  {| col_name := col_name c; col_type := col_type c; col_primary := true;
     col_unique := col_unique c; col_references := col_references c |}.

Definition unique (c : column) : column :=
  {| col_name := col_name c; col_type := col_type c; col_primary := col_primary c;
     col_unique := true; col_references := col_references c |}.

Definition references (target : string) (c : column) : column :=
  {| col_name := col_name c; col_type := col_type c; col_primary := col_primary c;
     col_unique := col_unique c; col_references := Some target |}.

(** [tbl.timestamps()] *)
Definition timestamps : list column :=
  [ {| col_name := "created_at"; col_type := TDatetime; col_primary := false;
       col_unique := false; col_references := None |};
    {| col_name := "updated_at"; col_type := TDatetime; col_primary := false;
       col_unique := false; col_references := None |} ].

Definition createTableIfNotExists (name : string) (cols : list column) (s : schema)
  : schema :=
  match s !! name with
  | Some _ => s
  | None => <[name := cols]> s
  end.

Definition dropTable (name : string) (s : schema) : option schema :=
  match s !! name with
  | Some _ => Some (delete name s)
  | None => None
  end.

(** [knex.schema.table(name, tbl => tbl.<column>)] *)
Definition add_column (name : string) (c : column) (s : schema) : option schema :=
  match s !! name with
  | Some cols =>
      if bool_decide (col_name c ∈ col_name <$> cols) then None
      else Some (<[name := (cols ++ [c])%list]> s)
  | None => None
  end.

(** [knex.schema.table(name, tbl => tbl.dropColumn(column))] *)
Definition dropColumn (name column : string) (s : schema) : option schema :=
  match s !! name with
  | Some cols =>
      if bool_decide (column ∈ col_name <$> cols)
      then Some (<[name := List.filter (fun c => negb (bool_decide (col_name c = column))) cols]> s)
      else None
  | None => None
  end.

(** [migrations/20160523121832_setup_blog.js] *)
Module setup_blog.

Definition users_columns : list column :=
  ([primary (increments "id"); string_ "name" 255;
   unique (string_ "username" 255); unique (string_ "email" 255)]
  ++ timestamps)%list.

Definition posts_columns : list column :=
  ([primary (increments "id"); string_ "title" 255; string_ "body" 255;
   references "users.id" (integer "author")]
  ++ timestamps)%list.

Definition comments_columns : list column :=
  ([primary (increments "id"); string_ "body" 255;
   references "users.id" (integer "user_id");
   references "posts.id" (integer "post_id")]
  ++ timestamps)%list.

Definition up (s : schema) : schema :=
  createTableIfNotExists "comments" comments_columns
    (createTableIfNotExists "posts" posts_columns
       (createTableIfNotExists "users" users_columns s)).

Definition down (s : schema) : option schema :=
  s1 ← dropTable "comments" s;
  s2 ← dropTable "posts" s1;
  dropTable "users" s2.

End setup_blog.

(** The migration that adds the password column. *)
Module add_password_field.

Definition up (s : schema) : option schema :=
  add_column "users" (string_ "password" 128) s.

Definition down (s : schema) : option schema :=
  dropColumn "users" "password" s.

End add_password_field.

(** ** More sample inputs: a post by alice, a comment on it, schemas *)

Definition hello_body : attrs :=
  {[ "title" := JStr "Hello"; "body" := JStr "First post"; "author" := JNum 1 ]}.

Definition hello_row : attrs :=
  {[ "id" := JNum 1; "title" := JStr "Hello"; "body" := JStr "First post";
     "author" := JNum 1; "created_at" := JNum 1464000000;
     "updated_at" := JNum 1464000000 ]}.

(** The world after [POST /post] with [hello_body] on [alice_world]. *)
Definition blog_world : world :=
  final (post_post (B := demo_bcrypt) UserFunction hello_body alice_world).

Definition nice_body : attrs :=
  {[ "body" := JStr "Nice"; "user_id" := JNum 1; "post_id" := JNum 1 ]}.

Definition carol_body : attrs := {[ "username" := JStr "carol" ]}.

Definition takeover_body : attrs :=
  {[ "id" := JNum 1; "password" := JStr "hunter2" ]}.

(** A database that holds an unrelated table. *)
Definition legacy_schema : schema :=
  {[ "knex_migrations" := [primary (increments "id"); string_ "name" 255] ]}.

(** * Properties *)

Section Properties.
Context {B : Bcrypt}.

Ltac unfold_promise :=
  unfold then_, catch_, detached, query, emit, throw, resolve, done,
    sendStatus, send, console_error in *.

(** ** The store lookup *)

Lemma fetch_failing (m : Model) (w : world) (e : js_error) :
  driver w = Failing e ->
  fetch m w = Run (RejectedWith e) w [EvRaised e].
Proof. intros H. unfold fetch, query, throw. now rewrite H. Qed.

Lemma fetch_healthy (m : Model) (w : world) :
  driver w = Healthy ->
  fetch m w =
    Run (Fulfilled ((fun row => forge (cls m) (row ∪ attributes m))
                      <$> List.find (row_matches (attributes m))
                            (rows (table_of (cls m) w)))) w [].
Proof. intros H. unfold fetch, query. now rewrite H. Qed.

Lemma find_none_iff {A} (f : A -> bool) (l : list A) :
  List.find f l = None <-> forall x, x ∈ l -> f x = false.
Proof.
  induction l as [|a l IH]; simpl.
  - split; [intros _ x Hx; inversion Hx | done].
  - destruct (f a) eqn:Hfa.
    + split; [done | intros H; specialize (H a (list_elem_of_here _ _)); congruence].
    + rewrite IH. split.
      * intros H x Hx. inversion Hx; subst; auto.
      * intros H x Hx. apply H. now apply list_elem_of_further.
Qed.

(** ** The LocalStrategy callback, case by case *)

Lemma LocalStrategy_found v username password w row :
  driver w = Healthy ->
  List.find (row_matches {[ "username" := JStr username ]}) (rows (users w)) = Some row ->
  LocalStrategy v username password w
  = Run (Fulfilled tt) w [EvDone (Done None DFalse)].
Proof.
  intros Hd Hf. unfold LocalStrategy, catch_, then_.
  rewrite fetch_healthy by done. simpl. now rewrite Hf.
Qed.

Lemma LocalStrategy_not_found v username password w :
  driver w = Healthy ->
  List.find (row_matches {[ "username" := JStr username ]}) (rows (users w)) = None ->
  LocalStrategy v username password w
  = let e := TypeError "Cannot read property 'validatePassword' of null" in
    Run (Fulfilled tt) w [EvRaised e; EvDone (Done (Some e) DAbsent)].
Proof.
  intros Hd Hf. unfold LocalStrategy, catch_, then_.
  rewrite fetch_healthy by done. simpl. now rewrite Hf.
Qed.

Lemma LocalStrategy_lookup_error v username password w e :
  driver w = Failing e ->
  LocalStrategy v username password w
  = Run (Fulfilled tt) w [EvRaised e; EvDone (Done (Some e) DAbsent)].
Proof.
  intros Hd. unfold LocalStrategy, catch_, then_.
  now rewrite (fetch_failing _ _ e).
Qed.

(** [bcrypt.compare] is never reached from the callback. *)
Lemma LocalStrategy_never_compares v username password w :
  compare_calls (events (LocalStrategy v username password w)) = [].
Proof.
  destruct (driver w) as [|e] eqn:Hd.
  - destruct (List.find (row_matches {[ "username" := JStr username ]})
                (rows (users w))) as [row|] eqn:Hf.
    + now rewrite (LocalStrategy_found _ _ _ _ row).
    + now rewrite LocalStrategy_not_found.
  - now rewrite (LocalStrategy_lookup_error _ _ _ _ e).
Qed.

(** C6: whenever an error is raised while the strategy callback runs (by the
    store lookup, or at the verification step), the callback calls [done]
    exactly once, with that very error, which passport turns into
    [Errored e]; that outcome is not [Rejected]. *)
Theorem C6_raised_error_reaches_done v username password w e :
  e ∈ raised (events (LocalStrategy v username password w)) ->
  done_calls (events (LocalStrategy v username password w)) = [Done (Some e) DAbsent]
  /\ authenticate v username password w = [Errored e]
  /\ Errored e <> Rejected.
Proof.
  unfold authenticate.
  destruct (driver w) as [|e0] eqn:Hd.
  - destruct (List.find (row_matches {[ "username" := JStr username ]})
                (rows (users w))) as [row|] eqn:Hf.
    + rewrite (LocalStrategy_found _ _ _ _ row) by done. simpl.
      intros H. inversion H.
    + rewrite LocalStrategy_not_found by done. simpl.
      intros H. apply list_elem_of_singleton in H. now subst.
  - rewrite (LocalStrategy_lookup_error _ _ _ _ e0) by done. simpl.
    intros H. apply list_elem_of_singleton in H. now subst.
Qed.

(** C5: in the arrow-function revision [validatePassword] never reads the
    model: whatever the model and the supplied password, the promise rejects
    with a TypeError before [bcrypt.compare] is called, so no comparison
    sees the stored hash.  The [function] revision calls [bcrypt.compare]
    once, on the supplied password and the model's [password] attribute, and
    settles as bcrypt does. *)
Theorem C5_validatePassword_this_binding (m : Model) (suppliedPassword : string) (w : world) :
  (exists p, validatePassword UserArrow m suppliedPassword = Some p
     /\ p w = Run (RejectedWith (TypeError "Cannot read property 'password' of undefined"))
               w [EvRaised (TypeError "Cannot read property 'password' of undefined")]
     /\ compare_calls (events (p w)) = [])
  /\
  (exists p, validatePassword UserFunction m suppliedPassword = Some p
     /\ compare_calls (events (p w))
        = [(JStr suppliedPassword, default JUndefined (attributes m !! "password"))]
     /\ result (p w)
        = match attributes m !! "password" with
          | Some (JStr hash) => Fulfilled (checkpw suppliedPassword hash)
          | _ => RejectedWith BcryptArgumentError
          end).
Proof.
  split; eexists; (split; [reflexivity|]).
  - split; reflexivity.
  - unfold validate_executor, bcrypt_compare; simpl.
    unfold_promise; simpl.
    destruct (attributes m !! "password") as [[]|]; simpl; split; reflexivity.
Qed.

(** C9: with an empty body, each of [POST /user], [POST /post] and
    [POST /comment] answers 400 and nothing else happens: the world (all
    three tables included) is left as it was and no hook, hash or query
    runs. *)
Theorem C9_empty_body_400_no_write v (body : attrs) w :
  isEmpty body = true ->
  post_user v body w = Run (Fulfilled tt) w [EvSend (Status 400)]
  /\ post_post v body w = Run (Fulfilled tt) w [EvSend (Status 400)]
  /\ post_comment v body w = Run (Fulfilled tt) w [EvSend (Status 400)].
Proof.
  intros H. unfold post_user, post_post, post_comment. rewrite H.
  repeat split.
Qed.

(** ** Session state *)

Definition keeps_session {A} (p : promise A) : Prop :=
  forall w, session (final (p w)) = session w.

Lemma keeps_resolve {A} (a : A) : keeps_session (resolve a).
Proof. now intros w. Qed.

Lemma keeps_throw {A} e : keeps_session (@throw A e).
Proof. now intros w. Qed.

Lemma keeps_emit ev : keeps_session (emit ev).
Proof. now intros w. Qed.

Lemma keeps_then {A C} (p : promise A) (f : A -> promise C) :
  keeps_session p -> (forall a, keeps_session (f a)) -> keeps_session (then_ p f).
Proof.
  intros Hp Hf w. unfold then_. specialize (Hp w).
  destruct (result (p w)); simpl; [|done]. now rewrite Hf.
Qed.

Lemma keeps_catch {A} (p : promise A) (h : js_error -> promise A) :
  keeps_session p -> (forall e, keeps_session (h e)) -> keeps_session (catch_ p h).
Proof.
  intros Hp Hh w. unfold catch_. specialize (Hp w).
  destruct (result (p w)); simpl; [done|]. now rewrite Hh.
Qed.

Lemma keeps_detached {A} (p : promise A) :
  keeps_session p -> keeps_session (detached p).
Proof. intros Hp w. apply Hp. Qed.

Lemma keeps_query {A} (q : world -> A) : keeps_session (query q).
Proof. intros w. unfold query. now destruct (driver w). Qed.

Lemma keeps_bcrypt_hash data rounds : keeps_session (bcrypt_hash data rounds).
Proof.
  unfold bcrypt_hash. apply keeps_then; [apply keeps_emit|].
  intros _. destruct data; try apply keeps_throw. now intros w.
Qed.

Lemma keeps_bcrypt_compare data hash : keeps_session (bcrypt_compare data hash).
Proof.
  unfold bcrypt_compare. apply keeps_then; [apply keeps_emit|].
  intros _. destruct data, hash; first [apply keeps_throw | apply keeps_resolve].
Qed.

Lemma keeps_sync_insert m : keeps_session (sync_insert m).
Proof.
  intros w. unfold sync_insert. destruct (driver w); [|done].
  now destruct (admissible _ _ _).
Qed.

Lemma keeps_sync_update m : keeps_session (sync_update m).
Proof.
  intros w. unfold sync_update. destruct (driver w); [|done].
  destruct (negb _); [done|]. now destruct (admissible _ _ _).
Qed.

Lemma keeps_timestamp c m : keeps_session (timestamp c m).
Proof. now intros w. Qed.

Lemma keeps_encryptPassword m : keeps_session (encryptPassword m).
Proof.
  unfold encryptPassword.
  apply keeps_then; [apply keeps_bcrypt_hash | intros; apply keeps_resolve].
Qed.

Lemma keeps_trigger v c m : keeps_session (trigger (initialize v c) m).
Proof.
  destruct c, v; simpl; try apply keeps_resolve;
    (apply keeps_then; [apply keeps_encryptPassword | intros; apply keeps_resolve]).
Qed.

Lemma keeps_save v m : keeps_session (save v m).
Proof.
  unfold save. destruct (isNew m).
  - apply keeps_then; [apply keeps_timestamp|]. intros m1.
    apply keeps_then; [apply keeps_trigger | intros; apply keeps_sync_insert].
  - apply keeps_then; [apply keeps_timestamp | intros; apply keeps_sync_update].
Qed.

Ltac keeps :=
  repeat match goal with
    | |- forall _, _ => intro
    | |- keeps_session (catch_ _ _) => apply keeps_catch
    | |- keeps_session (then_ _ _) => apply keeps_then
    | |- keeps_session (detached _) => apply keeps_detached
    | |- keeps_session (query _) => apply keeps_query
    | |- keeps_session (save _ _) => apply keeps_save
    | |- keeps_session (emit _) => apply keeps_emit
    | |- keeps_session (resolve _) => apply keeps_resolve
    | |- keeps_session (throw _) => apply keeps_throw
    | |- keeps_session (if ?b then _ else _) => destruct b
    | |- keeps_session (match ?x with _ => _ end) => destruct x
    end.

Lemma keeps_app v req : keeps_session (app v req).
Proof.
  destruct req; simpl;
    unfold get_user, get_users, post_user, get_posts, get_post, post_post,
      post_comment, fetch_withRelated, with_related, fetch, fetchAll,
      sendStatus, send, console_error;
    keeps.
Qed.

(** ** What the user routes send *)

Lemma object_json_field (a : attrs) (k : string) (x : jsval) :
  a !! k = Some x -> has_field k (JVal x) (object_json a).
Proof.
  intros H. unfold object_json, has_field.
  apply list_elem_of_fmap. exists (k, x). split; [done|].
  now apply elem_of_map_to_list.
Qed.

Lemma get_user_found id w row :
  driver w = Healthy ->
  List.find (row_matches {[ "id" := JStr id ]}) (rows (users w)) = Some row ->
  get_user id w
  = Run (Fulfilled tt) w [EvSend (Json (object_json (row ∪ {[ "id" := JStr id ]})))].
Proof.
  intros Hd Hf. unfold get_user, catch_, then_.
  rewrite fetch_healthy by done. simpl. now rewrite Hf.
Qed.

Lemma get_user_missing id w :
  driver w = Healthy ->
  List.find (row_matches {[ "id" := JStr id ]}) (rows (users w)) = None ->
  get_user id w = Run (Fulfilled tt) w [EvSend (Status 404)].
Proof.
  intros Hd Hf. unfold get_user, catch_, then_.
  rewrite fetch_healthy by done. simpl. now rewrite Hf.
Qed.

Lemma get_user_error id w e :
  driver w = Failing e ->
  get_user id w
  = Run (Fulfilled tt) w [EvRaised e; EvConsoleError e; EvSend (Status 500)].
Proof.
  intros Hd. unfold get_user, catch_, then_.
  now rewrite (fetch_failing _ _ e).
Qed.

Lemma get_users_healthy w :
  driver w = Healthy ->
  get_users w
  = Run (Fulfilled tt) w [EvSend (Json (JArray (object_json <$> rows (users w))))].
Proof.
  intros Hd. unfold get_users, then_, fetchAll, query. rewrite Hd. simpl.
  now rewrite <- list_fmap_compose.
Qed.

(** C10: [GET /user/:id] writes exactly one response: 500 when the lookup
    fails, 404 when no row of the users table has that id, and otherwise
    the fetched record. *)
Theorem C10_get_user_one_response (id : string) (w : world) :
  let out := responses (events (get_user id w)) in
  length out = 1%nat
  /\ (forall e, driver w = Failing e -> out = [Status 500])
  /\ (driver w = Healthy ->
      (forall row, row ∈ rows (users w) ->
                   row_matches {[ "id" := JStr id ]} row = false) ->
      out = [Status 404])
  /\ (forall row, driver w = Healthy ->
        List.find (row_matches {[ "id" := JStr id ]}) (rows (users w)) = Some row ->
        out = [Json (object_json (row ∪ {[ "id" := JStr id ]}))]).
Proof.
  cbv zeta. repeat split.
  - destruct (driver w) as [|e] eqn:Hd.
    + destruct (List.find (row_matches {[ "id" := JStr id ]}) (rows (users w)))
        as [row|] eqn:Hf.
      * now rewrite (get_user_found _ _ row).
      * now rewrite get_user_missing.
    + now rewrite (get_user_error _ _ e).
  - intros e Hd. now rewrite (get_user_error _ _ e).
  - intros Hd Hnone. rewrite get_user_missing; [done..|].
    now apply find_none_iff.
  - intros row Hd Hf. now rewrite (get_user_found _ _ row).
Qed.

(** C3 (amended): no route writes the session; [GET /user/:id] sends the
    fetched row with every stored attribute as a property of the response
    object, the [password] attribute (the stored hash) among them, and
    [GET /users] sends every row of the users table in the same way. *)
Theorem C3_session_untouched_rows_sent_whole v (w : world) :
  (forall req, session (final (app v req w)) = session w)
  /\ (forall id row,
        driver w = Healthy ->
        List.find (row_matches {[ "id" := JStr id ]}) (rows (users w)) = Some row ->
        exists body,
          responses (events (app v (GET_user id) w)) = [Json body]
          /\ (forall k x, row !! k = Some x -> has_field k (JVal x) body))
  /\ (driver w = Healthy ->
      responses (events (app v GET_users w))
      = [Json (JArray (object_json <$> rows (users w)))]).
Proof.
  split; [intros req; apply keeps_app|]. split.
  - intros id row Hd Hf. simpl. rewrite (get_user_found _ _ row) by done.
    eexists. split; [reflexivity|].
    intros k x Hk. apply object_json_field.
    now apply lookup_union_Some_l.
  - intros Hd. simpl. now rewrite get_users_healthy.
Qed.

(** ** Creating a user *)

Lemma admissible_insert c (k : string) (x : jsval) (a : attrs) (rs : list attrs) :
  k ∈ columns c -> k ∉ unique_columns c ->
  admissible c a rs = true -> admissible c (<[k := x]> a) rs = true.
Proof.
  intros Hcol Hnu. unfold admissible.
  rewrite !andb_true_iff, !forallb_forall.
  intros [Hc Hu]. split.
  - intros [k' x'] Hin. apply list_elem_of_In, elem_of_map_to_list in Hin.
    apply lookup_insert_Some in Hin as [[<- _]|[_ Hin]]; simpl.
    + now apply bool_decide_eq_true.
    + apply (Hc (k', x')), list_elem_of_In. now apply elem_of_map_to_list.
  - intros k' Hin. assert (k <> k') as Hne.
    { intros ->. apply Hnu. now apply list_elem_of_In. }
    rewrite lookup_insert_ne by done. now apply Hu.
Qed.

Lemma sync_insert_healthy m w :
  driver w = Healthy ->
  admissible (cls m) (attributes m) (rows (table_of (cls m) w)) = true ->
  sync_insert m w
  = let t := table_of (cls m) w in
    let m' := model_set "id" (JNum (serial t + 1)) m in
    Run (Fulfilled m')
        (with_table (cls m)
           {| rows := rows t ++ [attributes m']; serial := serial t + 1 |} w) [].
Proof. intros Hd Ha. unfold sync_insert. now rewrite Hd, Ha. Qed.

(** C4: when a user is created from attributes holding the plaintext
    password [p], on a revision of the model that registers the 'creating'
    hook, the hook calls [bcrypt.hash(p, 10)] once before the insert, and
    the one row the save adds to the users table has as [password] the hash
    bcrypt returned: it is not [p], and bcrypt accepts [p] for it. *)
Theorem C4_creating_hook_stores_hash (HB : BcryptContract B)
    v (body : attrs) (p : string) (w : world) :
  v <> UserPlain ->
  body !! "password" = Some (JStr p) ->
  isNew (forge User body) = true ->
  driver w = Healthy ->
  admissible User body (rows (users w)) = true ->
  let r := save v (forge User body) w in
  let h := hashpw (entropy w (draws w)) 10 p in
  exists row,
    result r = Fulfilled (forge User row)
    /\ rows (users (final r)) = (rows (users w) ++ [row])%list
    /\ row !! "password" = Some (JStr h)
    /\ h <> p
    /\ checkpw p h = true
    /\ events r = [EvBcryptHash (JStr p) 10].
Proof.
  intros Hv Hp Hnew Hd Hadm. cbv zeta.
  set (h := hashpw (entropy w (draws w)) 10 p).
  set (stamped := <["created_at" := JNum (now w)]>
                    (<["updated_at" := JNum (now w)]> body)).
  set (hashed := forge User (<["password" := JStr h]> stamped)).
  assert (Hhook : initialize v User = [encryptPassword]) by now destruct v.
  assert (Hpw : stamped !! "password" = Some (JStr p)).
  { unfold stamped. now rewrite !lookup_insert_ne by done. }
  assert (Hok : admissible User (attributes hashed) (rows (users w)) = true).
  { unfold hashed, stamped. simpl.
    repeat (apply admissible_insert;
            [ compute_done | compute_done | ]).
    exact Hadm. }
  exists (<["id" := JNum (serial (users w) + 1)]> (attributes hashed)).
  assert (Hrun : save v (forge User body) w
    = Run (Fulfilled (model_set "id" (JNum (serial (users w) + 1)) hashed))
          (with_table User
             {| rows := rows (users w)
                        ++ [attributes (model_set "id" (JNum (serial (users w) + 1)) hashed)];
                serial := serial (users w) + 1 |} (draw_salt w).2)
          [EvBcryptHash (JStr p) 10]).
  { unfold save. rewrite Hnew. simpl cls. rewrite Hhook.
    unfold trigger, encryptPassword, bcrypt_hash, timestamp. unfold_promise.
    simpl. fold stamped. rewrite Hpw. simpl. fold h.
    rewrite sync_insert_healthy; [reflexivity | exact Hd | exact Hok]. }
  rewrite Hrun. simpl.
  repeat split.
  - rewrite lookup_insert_ne by done. unfold hashed. simpl.
    now rewrite lookup_insert_eq.
  - apply hashpw_fresh.
  - apply checkpw_hashpw.
Qed.

End Properties.

(** * The model on concrete inputs *)

Lemma prefix_append (s t : string) : String.prefix s (s +:+ t) = true.
Proof.
  induction s as [|a s IH]; simpl; [now destruct t|].
  now destruct (Ascii.ascii_dec a a).
Qed.

Lemma length_append (s t : string) :
  String.length (s +:+ t) = (String.length s + String.length t)%nat.
Proof. induction s as [|a s IH]; simpl; [done | now rewrite IH]. Qed.

Lemma demo_bcrypt_contract : BcryptContract demo_bcrypt.
Proof.
  split; simpl; intros salt rounds p.
  - apply prefix_append.
  - unfold demo_hashpw. intros H. apply (f_equal String.length) in H.
    rewrite !length_append in H. simpl in H. lia.
Qed.

Lemma alice_world_users : rows (users alice_world) = [alice_row].
Proof. vm_compute. reflexivity. Qed.

(** Some runs of the routes, for orientation. *)

Example post_user_creates_alice :
  events (post_user (B := demo_bcrypt) UserFunction alice_body fresh_world)
  = [EvBcryptHash (JStr "correct") 10;
     EvSend (Json (JObject [("id", JVal (JNum 1))]))].
Proof. vm_compute. reflexivity. Qed.

(** Without a [password] in the body the hook's [bcrypt.hash(undefined, 10)]
    fails, the save is abandoned and the route answers 500. *)
Example post_user_without_password :
  post_user (B := demo_bcrypt) UserArrow {[ "username" := JStr "carol" ]} alice_world
  = Run (Fulfilled tt) alice_world
      [EvBcryptHash JUndefined 10; EvRaised BcryptArgumentError;
       EvConsoleError BcryptArgumentError; EvSend (Status 500)].
Proof. vm_compute. reflexivity. Qed.

(** The users table has a unique [username]. *)
Example post_user_duplicate_username :
  responses (events (post_user (B := demo_bcrypt) UserFunction alice_body alice_world))
  = [Status 500]
  /\ users (final (post_user (B := demo_bcrypt) UserFunction alice_body alice_world))
     = users alice_world.
Proof. split; vm_compute; reflexivity. Qed.

(** The second revision of the model registers no hook: the row holds what
    the body held. *)
Example post_user_plain_revision :
  exists row,
    rows (users (final (post_user (B := demo_bcrypt) UserPlain bob_body fresh_world)))
    = [row]
    /\ row !! "password" = Some (JStr "plain123").
Proof. eexists. split; vm_compute; reflexivity. Qed.

(** A wrong password and a right one end the same way. *)
Example login_wrong_password :
  authenticate (B := demo_bcrypt) UserFunction "alice" "wrong" alice_world = [Rejected].
Proof. vm_compute. reflexivity. Qed.

(** [GET /users] has no [.catch]: a failed query leaves the request without
    a response. *)
Example get_users_broken :
  responses (events (get_users broken_world)) = [].
Proof. vm_compute. reflexivity. Qed.

(** C1: on the world left by [POST /user] for alice (any revision of the
    model), the users table holds alice's row, the hasher accepts
    ["correct"] for the stored hash, and yet the strategy callback calls
    [done(null, false)]: the outcome is [Rejected], where the documented
    callback ([if (!usr)]) gives [Authenticated]. *)
Theorem C1_matching_login_is_rejected :
  alice_row ∈ rows (users alice_world)
  /\ alice_row !! "username" = Some (JStr "alice")
  /\ alice_row !! "password" = Some (JStr alice_hash)
  /\ checkpw (Bcrypt := demo_bcrypt) "correct" alice_hash = true
  /\ forall v,
       done_calls (events (LocalStrategy (B := demo_bcrypt) v "alice" "correct" alice_world))
       = [Done None DFalse]
       /\ authenticate (B := demo_bcrypt) v "alice" "correct" alice_world = [Rejected].
Proof.
  split; [rewrite alice_world_users; apply list_elem_of_here|].
  repeat split; try (vm_compute; reflexivity); destruct v; vm_compute; reflexivity.
Qed.

(** C2: on the same world no row has username ["mallory"]; the callback
    throws on [usr.validatePassword] of [null] and calls [done(err)]: the
    outcome is [Errored], while a wrong password for alice gives
    [Rejected]. *)
Theorem C2_unknown_user_is_errored :
  (forall row, row ∈ rows (users alice_world) ->
               row !! "username" <> Some (JStr "mallory"))
  /\ forall v,
       authenticate (B := demo_bcrypt) v "mallory" "guess" alice_world
       = [Errored (TypeError "Cannot read property 'validatePassword' of null")]
       /\ authenticate (B := demo_bcrypt) v "alice" "wrong" alice_world = [Rejected].
Proof.
  split.
  - intros row Hrow. rewrite alice_world_users in Hrow.
    apply list_elem_of_singleton in Hrow. subst row. vm_compute. discriminate.
  - intros v. split; destruct v; vm_compute; reflexivity.
Qed.

(** C3, as stated, fails: alice's row holds her hash, and the bodies sent
    by [GET /user/1] and by [GET /users] carry a [password] property whose
    value is that hash. *)
Lemma C3_get_user_sends_hash :
  alice_row ∈ rows (users alice_world)
  /\ alice_row !! "password" = Some (JStr alice_hash)
  /\ (exists body,
        responses (events (app (B := demo_bcrypt) UserFunction (GET_user "1") alice_world))
        = [Json body]
        /\ has_field "password" (JVal (JStr alice_hash)) body
        /\ exposes_password body = true)
  /\ (exists body,
        responses (events (app (B := demo_bcrypt) UserFunction GET_users alice_world))
        = [Json (JArray [body])]
        /\ has_field "password" (JVal (JStr alice_hash)) body
        /\ exposes_password (JArray [body]) = true).
Proof.
  split; [rewrite alice_world_users; apply list_elem_of_here|].
  split; [vm_compute; reflexivity|].
  split; eexists; (split; [vm_compute; reflexivity|]);
    (split; [|vm_compute; reflexivity]);
    vm_compute; repeat first [apply list_elem_of_here | apply list_elem_of_further].
Qed.

(** The amended C3 on alice's world. *)
Lemma C3_session_untouched_rows_sent_whole_witness :
  session (final (app (B := demo_bcrypt) UserFunction (POST_user bob_body) alice_world))
  = session alice_world
  /\ (exists body,
       responses (events (app (B := demo_bcrypt) UserFunction (GET_user "1") alice_world))
       = [Json body]
       /\ has_field "password" (JVal (JStr alice_hash)) body)
  /\ responses (events (app (B := demo_bcrypt) UserFunction GET_users alice_world))
     = [Json (JArray (object_json <$> rows (users alice_world)))].
Proof.
  destruct (C3_session_untouched_rows_sent_whole (B := demo_bcrypt)
              UserFunction alice_world) as (Hsession & Huser & Husers).
  split; [apply Hsession|]. split.
  - destruct (Huser "1" alice_row) as (body & Hbody & Hfields);
      [reflexivity | vm_compute; reflexivity |].
    exists body. split; [exact Hbody|].
    apply Hfields. vm_compute. reflexivity.
  - apply Husers. reflexivity.
Defined.

(** C4 on the empty database, with the stand-in hasher: bob's row. *)
Lemma C4_creating_hook_stores_hash_witness :
  exists row,
    result (save (B := demo_bcrypt) UserFunction (forge User bob_body) fresh_world)
    = Fulfilled (forge User row)
    /\ rows (users (final (save (B := demo_bcrypt) UserFunction
                             (forge User bob_body) fresh_world)))
       = [row]
    /\ row !! "password" = Some (JStr "$2a$plain123$salt0")
    /\ "$2a$plain123$salt0" <> "plain123"
    /\ demo_checkpw "plain123" "$2a$plain123$salt0" = true
    /\ events (save (B := demo_bcrypt) UserFunction (forge User bob_body) fresh_world)
       = [EvBcryptHash (JStr "plain123") 10].
Proof.
  apply (C4_creating_hook_stores_hash (B := demo_bcrypt) demo_bcrypt_contract
           UserFunction bob_body "plain123" fresh_world).
  - discriminate.
  - vm_compute. reflexivity.
  - vm_compute. reflexivity.
  - reflexivity.
  - vm_compute. reflexivity.
Defined.

(** C6 on a lost connection, and on a username nobody has. *)
Lemma C6_raised_error_reaches_done_witness :
  authenticate (B := demo_bcrypt) UserFunction "alice" "correct" broken_world
  = [Errored (DriverError "connection refused")]
  /\ authenticate (B := demo_bcrypt) UserArrow "mallory" "guess" alice_world
     = [Errored (TypeError "Cannot read property 'validatePassword' of null")].
Proof.
  split.
  - apply (C6_raised_error_reaches_done (B := demo_bcrypt) UserFunction
             "alice" "correct" broken_world (DriverError "connection refused")).
    vm_compute. apply list_elem_of_here.
  - apply (C6_raised_error_reaches_done (B := demo_bcrypt) UserArrow
             "mallory" "guess" alice_world
             (TypeError "Cannot read property 'validatePassword' of null")).
    vm_compute. apply list_elem_of_here.
Defined.

(** C9 on the body [{}]. *)
Lemma C9_empty_body_400_no_write_witness :
  post_user (B := demo_bcrypt) UserFunction ∅ alice_world
  = Run (Fulfilled tt) alice_world [EvSend (Status 400)]
  /\ post_post (B := demo_bcrypt) UserFunction ∅ alice_world
     = Run (Fulfilled tt) alice_world [EvSend (Status 400)]
  /\ post_comment (B := demo_bcrypt) UserFunction ∅ alice_world
     = Run (Fulfilled tt) alice_world [EvSend (Status 400)].
Proof.
  apply (C9_empty_body_400_no_write (B := demo_bcrypt) UserFunction ∅ alice_world).
  reflexivity.
Defined.

(** C10: one input for each of the three responses. *)
Lemma C10_get_user_one_response_witness :
  responses (events (get_user "1" broken_world)) = [Status 500]
  /\ responses (events (get_user "2" alice_world)) = [Status 404]
  /\ responses (events (get_user "1" alice_world))
     = [Json (object_json (alice_row ∪ {[ "id" := JStr "1" ]}))].
Proof.
  split; [|split].
  - apply (C10_get_user_one_response "1" broken_world) with
      (e := DriverError "connection refused").
    reflexivity.
  - apply (C10_get_user_one_response "2" alice_world); [reflexivity|].
    intros row Hrow. rewrite alice_world_users in Hrow.
    apply list_elem_of_singleton in Hrow. subst row. vm_compute. reflexivity.
  - apply (C10_get_user_one_response "1" alice_world); [reflexivity|].
    vm_compute. reflexivity.
Defined.

(** * Further properties of the routes, the model and the migrations *)

Section Runs.
Context {B : Bcrypt}.

(** ** What a save does, case by case *)

Lemma timestamps_admissible c (a : attrs) (x y : jsval) (rs : list attrs) :
  admissible c a rs = true ->
  admissible c (<["created_at" := x]> (<["updated_at" := y]> a)) rs = true.
Proof.
  intros H.
  repeat (apply admissible_insert;
          [ destruct c; compute_done | destruct c; compute_done | ]).
  exact H.
Qed.

Lemma save_insert_unhooked v m w :
  isNew m = true ->
  initialize v (cls m) = [] ->
  driver w = Healthy ->
  admissible (cls m) (attributes m) (rows (table_of (cls m) w)) = true ->
  save v m w
  = let t := table_of (cls m) w in
    let m' := model_set "id" (JNum (serial t + 1))
                (model_set "created_at" (JNum (now w))
                   (model_set "updated_at" (JNum (now w)) m)) in
    Run (Fulfilled m')
        (with_table (cls m)
           {| rows := rows t ++ [attributes m']; serial := serial t + 1 |} w) [].
Proof.
  intros Hnew Hinit Hd Hadm. unfold save. rewrite Hnew.
  unfold timestamp, then_ at 1. simpl. rewrite Hinit. simpl.
  unfold then_, resolve. simpl.
  rewrite sync_insert_healthy; [reflexivity | exact Hd |].
  simpl. now apply timestamps_admissible.
Qed.

Lemma save_insert_hooked v m w p :
  isNew m = true ->
  initialize v (cls m) = [encryptPassword] ->
  attributes m !! "password" = Some (JStr p) ->
  driver w = Healthy ->
  admissible (cls m) (attributes m) (rows (table_of (cls m) w)) = true ->
  save v m w
  = let t := table_of (cls m) w in
    let m' := model_set "id" (JNum (serial t + 1))
                (model_set "password" (JStr (hashpw (entropy w (draws w)) 10 p))
                   (model_set "created_at" (JNum (now w))
                      (model_set "updated_at" (JNum (now w)) m))) in
    Run (Fulfilled m')
        (with_table (cls m)
           {| rows := rows t ++ [attributes m']; serial := serial t + 1 |}
           (draw_salt w).2)
        [EvBcryptHash (JStr p) 10].
Proof.
  intros Hnew Hinit Hp Hd Hadm.
  assert (Hc : cls m = User) by (destruct (cls m), v; simpl in Hinit; congruence).
  unfold save. rewrite Hnew.
  unfold timestamp, then_ at 1. simpl. rewrite Hinit.
  unfold trigger, encryptPassword, bcrypt_hash, then_, emit, resolve. simpl.
  rewrite !lookup_insert_ne by done. rewrite Hp. simpl.
  rewrite sync_insert_healthy; [reflexivity | exact Hd |].
  simpl. rewrite Hc in *.
  apply admissible_insert; [compute_done | compute_done |].
  now apply timestamps_admissible.
Qed.

Lemma save_hook_rejects v m w :
  isNew m = true ->
  initialize v (cls m) = [encryptPassword] ->
  (forall p, attributes m !! "password" <> Some (JStr p)) ->
  save v m w
  = let d := default JUndefined (attributes m !! "password") in
    Run (RejectedWith BcryptArgumentError) w
      [EvBcryptHash d 10; EvRaised BcryptArgumentError].
Proof.
  intros Hnew Hinit Hp. unfold save. rewrite Hnew.
  unfold timestamp, then_ at 1. simpl. rewrite Hinit.
  unfold trigger, encryptPassword, bcrypt_hash, then_, emit, resolve, throw. simpl.
  rewrite !lookup_insert_ne by done.
  destruct (attributes m !! "password") as [[]|] eqn:Hpw; simpl; try reflexivity.
  now destruct (Hp s).
Qed.

Lemma isNew_stamped m x :
  isNew (model_set "updated_at" x m) = isNew m.
Proof. unfold isNew, model_set. simpl. now rewrite lookup_insert_ne. Qed.

Lemma save_update v m w :
  isNew m = false ->
  save v m w = sync_update (model_set "updated_at" (JNum (now w)) m) w.
Proof.
  intros Hnew. unfold save. rewrite Hnew. unfold timestamp, then_. simpl.
  now destruct (sync_update _ w) as [[] ? ?].
Qed.

(** ** Composition lemmas *)

Lemma responses_app (a b : list event) :
  responses (a ++ b) = (responses a ++ responses b)%list.
Proof. unfold responses. apply omap_app. Qed.

Lemma hash_calls_app (a b : list event) :
  hash_calls (a ++ b) = (hash_calls a ++ hash_calls b)%list.
Proof. unfold hash_calls. apply omap_app. Qed.

Lemma read_only_query {A} (q : world -> A) : read_only (query q).
Proof. intros w. unfold query. now destruct (driver w). Qed.

Lemma read_only_emit ev : read_only (emit ev).
Proof. now intros w. Qed.

Lemma read_only_resolve {A} (a : A) : read_only (resolve a).
Proof. now intros w. Qed.

Lemma read_only_then {A C} (p : promise A) (f : A -> promise C) :
  read_only p -> (forall a, read_only (f a)) -> read_only (then_ p f).
Proof.
  intros Hp Hf w. unfold then_. specialize (Hp w).
  destruct (result (p w)); simpl; [|done]. now rewrite Hf.
Qed.

Lemma read_only_catch {A} (p : promise A) (h : js_error -> promise A) :
  read_only p -> (forall e, read_only (h e)) -> read_only (catch_ p h).
Proof.
  intros Hp Hh w. unfold catch_. specialize (Hp w).
  destruct (result (p w)); simpl; [done|]. now rewrite Hh.
Qed.

Ltac read_only :=
  repeat match goal with
    | |- forall _, _ => intro
    | |- read_only (catch_ _ _) => apply read_only_catch
    | |- read_only (then_ _ _) => apply read_only_then
    | |- read_only (query _) => apply read_only_query
    | |- read_only (emit _) => apply read_only_emit
    | |- read_only (resolve _) => apply read_only_resolve
    | |- read_only (if ?b then _ else _) => destruct b
    | |- read_only (match ?x with _ => _ end) => destruct x
    end.

Lemma read_only_fetch m : read_only (fetch m).
Proof. apply read_only_query. Qed.

Lemma read_only_fetch_withRelated m : read_only (fetch_withRelated m).
Proof. unfold fetch_withRelated, with_related, fetch, fetchAll. read_only. Qed.

Lemma silent_query {A} (q : world -> A) : silent (query q).
Proof. intros w. unfold query. now destruct (driver w). Qed.

Lemma silent_resolve {A} (a : A) : silent (resolve a).
Proof. now intros w. Qed.

Lemma silent_throw {A} e : silent (@throw A e).
Proof. now intros w. Qed.

Lemma silent_then {A C} (p : promise A) (f : A -> promise C) :
  silent p -> (forall a, silent (f a)) -> silent (then_ p f).
Proof.
  intros Hp Hf w. unfold then_. specialize (Hp w).
  destruct (result (p w)); simpl; [|done].
  now rewrite responses_app, Hp, Hf.
Qed.

Lemma silent_bcrypt_hash data rounds : silent (bcrypt_hash data rounds).
Proof.
  intros w. unfold bcrypt_hash, then_, emit. simpl. now destruct data.
Qed.

Lemma silent_sync_insert m : silent (sync_insert m).
Proof.
  intros w. unfold sync_insert. destruct (driver w); [|done].
  now destruct (admissible _ _ _).
Qed.

Lemma silent_sync_update m : silent (sync_update m).
Proof.
  intros w. unfold sync_update. destruct (driver w); [|done].
  destruct (negb _); [done|]. now destruct (admissible _ _ _).
Qed.

Lemma silent_save v m : silent (save v m).
Proof.
  unfold save. destruct (isNew m).
  - apply silent_then; [now intros w|]. intros m1.
    apply silent_then; [|intros; apply silent_sync_insert].
    destruct (cls m), v; simpl; try apply silent_resolve;
      (apply silent_then; [|intros; apply silent_resolve]);
      (unfold encryptPassword; apply silent_then;
       [apply silent_bcrypt_hash | intros; apply silent_resolve]).
  - apply silent_then; [now intros w | intros; apply silent_sync_update].
Qed.

Lemma silent_fetch_withRelated m : silent (fetch_withRelated m).
Proof.
  unfold fetch_withRelated, with_related, fetch, fetchAll.
  repeat match goal with
    | |- forall _, _ => intro
    | |- silent (then_ _ _) => apply silent_then
    | |- silent (query _) => apply silent_query
    | |- silent (resolve _) => apply silent_resolve
    | |- silent (match ?x with _ => _ end) => destruct x
    end.
Qed.

(** A route of the shape [p.then(x => respond once).catch(e => respond once)]
    where [p] itself writes nothing. *)
Lemma then_catch_one_response {A} (p : promise A) (f : A -> promise unit)
    (h : js_error -> promise unit) :
  silent p ->
  (forall a w, result (f a w) = Fulfilled tt
               /\ length (responses (events (f a w))) = 1%nat) ->
  (forall e w, length (responses (events (h e w))) = 1%nat) ->
  forall w, length (responses (events (catch_ (then_ p f) h w))) = 1%nat.
Proof.
  intros Hp Hf Hh w. unfold catch_, then_. specialize (Hp w).
  destruct (result (p w)) as [a|e]; simpl.
  - destruct (Hf a (final (p w))) as [Hr Hl]. rewrite Hr. simpl.
    rewrite responses_app, Hp. exact Hl.
  - rewrite responses_app, Hp. apply Hh.
Qed.

(** ** The strategy callback and the read routes *)

(** X1: whatever the revision of the model, the credentials and the state of
    the store, the strategy callback calls [done] exactly once and never
    with a user: no login attempt is ever [Authenticated].  The callback
    leaves the world as it was and calls neither [bcrypt.hash] nor
    [bcrypt.compare]. *)
Theorem LocalStrategy_never_authenticates v username password w :
  exists d,
    done_calls (events (LocalStrategy v username password w)) = [d]
    /\ (forall m, verified d <> Authenticated m)
    /\ final (LocalStrategy v username password w) = w
    /\ hash_calls (events (LocalStrategy v username password w)) = []
    /\ compare_calls (events (LocalStrategy v username password w)) = [].
Proof.
  destruct (driver w) as [|e] eqn:Hd.
  - destruct (List.find (row_matches {[ "username" := JStr username ]})
                (rows (users w))) as [row|] eqn:Hf.
    + rewrite (LocalStrategy_found _ _ _ _ row) by done.
      exists (Done None DFalse). now repeat split.
    + rewrite LocalStrategy_not_found by done. simpl.
      eexists. now repeat split.
  - rewrite (LocalStrategy_lookup_error _ _ _ _ e) by done.
    eexists. now repeat split.
Qed.

Lemma read_only_get_user id : read_only (get_user id).
Proof. unfold get_user, fetch, sendStatus, send, console_error. read_only. Qed.

Lemma read_only_get_users : read_only get_users.
Proof. unfold get_users, fetchAll, send. read_only. Qed.

Lemma read_only_get_posts : read_only get_posts.
Proof. unfold get_posts, fetchAll, sendStatus, send. read_only. Qed.

Lemma read_only_get_post id : read_only (get_post id).
Proof.
  unfold get_post, sendStatus, send, console_error.
  apply read_only_catch; [apply read_only_then|]; read_only.
  apply read_only_fetch_withRelated.
Qed.

(** X2: the four GET routes never change the world: tables, session, clock
    and salt counter are as before, whether the query succeeds or fails. *)
Theorem get_routes_read_only (id : string) (w : world) :
  final (get_user id w) = w
  /\ final (get_users w) = w
  /\ final (get_posts w) = w
  /\ final (get_post id w) = w.
Proof.
  repeat split.
  - apply read_only_get_user.
  - apply read_only_get_users.
  - apply read_only_get_posts.
  - apply read_only_get_post.
Qed.

(** X3: every route except [GET /users] writes exactly one response to every
    request, whatever the body, the store and the state of the database. *)
Theorem routes_respond_once v (req : request) (w : world) :
  req <> GET_users ->
  length (responses (events (app v req w))) = 1%nat.
Proof.
  intros Hreq. destruct req as [id| |body| |id|body|body]; simpl;
    [ | done | | | | | ].
  - unfold get_user. apply then_catch_one_response.
    + apply silent_query.
    + intros usr w'. now destruct usr.
    + now intros e w'.
  - unfold post_user. destruct (isEmpty body); [done|].
    apply then_catch_one_response; [apply silent_save | now intros | now intros].
  - unfold get_posts. apply then_catch_one_response;
      [apply silent_query | now intros | now intros].
  - unfold get_post. apply then_catch_one_response.
    + apply silent_fetch_withRelated.
    + intros post w'. now destruct post.
    + now intros e w'.
  - unfold post_post. destruct (isEmpty body); [done|].
    apply then_catch_one_response; [apply silent_save | now intros | now intros].
  - unfold post_comment. destruct (isEmpty body); [done|].
    apply then_catch_one_response; [apply silent_save | now intros | now intros].
Qed.

(** X4: [GET /users] has no [.catch]: it sends the list of users when the
    query succeeds, and when the query fails it sends nothing at all and the
    rejection is left unhandled. *)
Theorem get_users_responds_iff_healthy (w : world) :
  (driver w = Healthy ->
   responses (events (get_users w)) = [Json (JArray (object_json <$> rows (users w)))])
  /\ (forall e, driver w = Failing e ->
        responses (events (get_users w)) = []
        /\ result (get_users w) = RejectedWith e).
Proof.
  split.
  - intros Hd. now rewrite get_users_healthy.
  - intros e Hd. unfold get_users, then_, fetchAll, query. now rewrite Hd.
Qed.

(** ** Saves: what they touch and when they hash *)

Ltac save_cases :=
  unfold save, timestamp, trigger, initialize, encryptPassword, bcrypt_hash,
    sync_insert, sync_update, then_, emit, resolve, throw, draw_salt;
  simpl;
  repeat (case_match; simplify_eq/=).

Lemma save_confined v m w : confined_to (cls m) w (final (save v m w)).
Proof.
  destruct m as [[] a]; unfold confined_to; simpl;
    save_cases;
    repeat split; try done; intros []; simpl; congruence.
Qed.

Lemma save_rejected v m w e :
  result (save v m w) = RejectedWith e ->
  same_tables w (final (save v m w)).
Proof.
  destruct m as [c a]. unfold same_tables.
  save_cases; intros; simplify_eq/=; now repeat split.
Qed.

Lemma save_failing_driver v m w e :
  driver w = Failing e ->
  exists e', result (save v m w) = RejectedWith e'.
Proof.
  intros Hd. destruct m as [c a].
  save_cases; try congruence; eauto.
Qed.

Lemma post_route_unfold v c body w :
  app v (POST_of c body) w
  = (if isEmpty body then sendStatus 400
     else catch_
            (then_ (save v (forge c body))
               (fun m => send (object_json {[ "id" := model_id m ]})))
            (fun error => then_ (console_error error) (fun _ => sendStatus 500))) w.
Proof. now destruct c. Qed.

Lemma post_route_rejected v c body w e :
  isEmpty body = false ->
  result (save v (forge c body) w) = RejectedWith e ->
  responses (events (app v (POST_of c body) w)) = [Status 500]
  /\ final (app v (POST_of c body) w) = final (save v (forge c body) w).
Proof.
  intros Hb Hr. rewrite post_route_unfold, Hb. unfold catch_, then_.
  rewrite Hr. simpl. rewrite !responses_app, silent_save. now split.
Qed.

Lemma post_route_fulfilled v c body w m :
  isEmpty body = false ->
  result (save v (forge c body) w) = Fulfilled m ->
  responses (events (app v (POST_of c body) w))
  = [Json (object_json {[ "id" := model_id m ]})]
  /\ final (app v (POST_of c body) w) = final (save v (forge c body) w)
  /\ hash_calls (events (app v (POST_of c body) w))
     = hash_calls (events (save v (forge c body) w)).
Proof.
  intros Hb Hr. rewrite post_route_unfold, Hb. unfold catch_, then_.
  rewrite Hr. simpl. rewrite responses_app, hash_calls_app, silent_save.
  simpl. now rewrite app_nil_r.
Qed.

(** X5: a POST route writes at most to the table of its own model: the two
    other tables, the session, the clock and the database connection are
    as before. *)
Theorem post_routes_confined v c (body : attrs) (w : world) :
  confined_to c w (final (app v (POST_of c body) w)).
Proof.
  rewrite post_route_unfold. destruct (isEmpty body).
  { unfold confined_to. now repeat split. }
  unfold catch_, then_.
  pose proof (save_confined v (forge c body) w) as Hc. simpl in Hc.
  destruct (result (save v (forge c body) w)); simpl; exact Hc.
Qed.

(** X6: when the database cannot be reached, [GET /user/:id], [GET /posts]
    and [GET /post/:id] answer 500 and so does every POST with a non-empty
    body (an empty one is still answered 400); [GET /users] answers
    nothing.  No table changes. *)
Theorem failing_database_responses v (req : request) (w : world) (e : js_error) :
  driver w = Failing e ->
  responses (events (app v req w))
  = match req with
    | GET_users => []
    | POST_user body | POST_post body | POST_comment body =>
        if isEmpty body then [Status 400] else [Status 500]
    | _ => [Status 500]
    end
  /\ same_tables w (final (app v req w)).
Proof.
  intros Hd.
  assert (Hpost : forall c body,
    responses (events (app v (POST_of c body) w))
    = (if isEmpty body then [Status 400] else [Status 500])
    /\ same_tables w (final (app v (POST_of c body) w))).
  { intros c body. destruct (isEmpty body) eqn:Hb.
    - rewrite post_route_unfold, Hb. unfold same_tables. now repeat split.
    - destruct (save_failing_driver v (forge c body) w e Hd) as [e' He'].
      destruct (post_route_rejected v c body w e' Hb He') as [-> ->].
      split; [done|]. now apply (save_rejected _ _ _ e'). }
  destruct req as [id| |body| |id|body|body].
  - simpl. rewrite (get_user_error _ _ e) by done. unfold same_tables. now repeat split.
  - simpl. unfold get_users, then_, fetchAll, query. rewrite Hd.
    unfold same_tables. now repeat split.
  - apply (Hpost User).
  - simpl. unfold get_posts, catch_, then_, fetchAll, query. rewrite Hd.
    unfold same_tables. now repeat split.
  - simpl. unfold get_post, fetch_withRelated, catch_, then_, fetch, query.
    rewrite Hd. unfold same_tables. now repeat split.
  - apply (Hpost Post).
  - apply (Hpost Comment).
Qed.

(** X7: saving a model calls [bcrypt.hash] exactly when it inserts a User on
    a revision that registers the hook, once, with the model's [password]
    attribute and cost 10.  Updates (a model that carries an id), posts,
    comments and the hook-less revision never hash. *)
Theorem save_hashes_only_on_user_insert v (m : Model) (w : world) :
  hash_calls (events (save v m w))
  = if isNew m
    then (fun _ => (default JUndefined (attributes m !! "password"), 10))
           <$> initialize v (cls m)
    else [].
Proof.
  destruct m as [c a].
  destruct (isNew {| cls := c; attributes := a |}) eqn:Hnew.
  - unfold save. rewrite Hnew. simpl.
    unfold timestamp, then_ at 1. simpl.
    destruct c, v; simpl;
      unfold encryptPassword, bcrypt_hash, sync_insert, then_, emit, resolve,
        throw, draw_salt; simpl;
      rewrite ?lookup_insert_ne by done;
      repeat (case_match; simplify_eq/=); try done.
  - rewrite save_update by done. unfold sync_update, throw.
    repeat (case_match; simpl); done.
Qed.

(** ** Rows, ids and lookups *)

Lemma row_matches_singleton (k : string) (x : jsval) (r : attrs) :
  row_matches {[ k := x ]} r
  = match r !! k with
    | Some y => sql_eq x y
    | None => false
    end.
Proof.
  unfold row_matches. rewrite map_to_list_singleton. simpl.
  now rewrite andb_true_r.
Qed.

Lemma find_app_last {A} (f : A -> bool) (l : list A) (y : A) :
  (forall x, x ∈ l -> f x = false) -> f y = true ->
  List.find f (l ++ [y]) = Some y.
Proof.
  intros Hl Hy. induction l as [|a l IH]; simpl.
  - now rewrite Hy.
  - rewrite (Hl a) by apply list_elem_of_here.
    apply IH. intros x Hx. apply Hl. now apply list_elem_of_further.
Qed.

Lemma table_ok_fresh_id (t : table) (r : attrs) :
  table_ok t -> r ∈ rows t ->
  row_matches {[ "id" := JStr (pretty (serial t + 1)) ]} r = false.
Proof.
  intros [Hids _] Hr. rewrite row_matches_singleton.
  rewrite Forall_forall in Hids. destruct (Hids r Hr) as (n & -> & Hn).
  simpl. apply bool_decide_eq_false. intros Heq.
  apply (inj pretty) in Heq. lia.
Qed.

Lemma table_ok_insert (t : table) (a : attrs) :
  table_ok t ->
  table_ok {| rows := rows t ++ [<["id" := JNum (serial t + 1)]> a];
              serial := serial t + 1 |}.
Proof.
  intros [Hids Hnd]. split; simpl.
  - apply Forall_app. split.
    + eapply Forall_impl; [exact Hids|]. intros r (n & Hn & Hle).
      exists n. split; [done | lia].
    + apply Forall_singleton. exists (serial t + 1).
      split; [apply lookup_insert_eq | lia].
  - rewrite fmap_app. simpl. apply NoDup_app. repeat split; [done | | apply NoDup_singleton].
    intros o Ho Hin. apply list_elem_of_singleton in Hin. subst o.
    rewrite lookup_insert_eq in Ho.
    apply list_elem_of_fmap in Ho as (r & Hr & Hin).
    rewrite Forall_forall in Hids. destruct (Hids r Hin) as (n & Hn & Hle).
    rewrite Hn in Hr. simplify_eq. lia.
Qed.

Lemma table_ok_update (t : table) (f : attrs -> attrs) :
  (forall r, f r !! "id" = r !! "id") ->
  table_ok t ->
  table_ok {| rows := f <$> rows t; serial := serial t |}.
Proof.
  intros Hf [Hids Hnd]. split; simpl.
  - apply Forall_fmap. eapply Forall_impl; [exact Hids|].
    intros r (n & Hn & Hle). exists n. simpl. now rewrite Hf.
  - rewrite <- list_fmap_compose.
    now rewrite (list_fmap_ext _ (fun r : attrs => r !! "id") (rows t)) by (intros; apply Hf).
Qed.

Lemma update_keeps_id (a r : attrs) (hit : bool) :
  (if hit then delete "id" a ∪ r else r) !! "id" = r !! "id".
Proof.
  destruct hit; [|done].
  rewrite lookup_union_r; [done | apply lookup_delete_eq].
Qed.

Lemma save_table_ok v m w :
  table_ok (table_of (cls m) w) ->
  table_ok (table_of (cls m) (final (save v m w))).
Proof.
  destruct m as [[] a]; simpl; intros Hok; save_cases;
    first [ exact Hok
          | apply table_ok_insert; exact Hok
          | apply (table_ok_update _ (fun r => if row_matches _ r then _ else r));
            [intros r; apply update_keeps_id | exact Hok] ].
Qed.

(** X8: every request leaves the tables with the shape the [increments]
    primary key promises: each row has a numeric id, no greater than the
    last id handed out, and ids are pairwise distinct. *)
Theorem requests_keep_ids_unique v (req : request) (w : world) :
  world_ok w -> world_ok (final (app v req w)).
Proof.
  intros Hok.
  assert (Hpost : forall c body, world_ok (final (app v (POST_of c body) w))).
  { intros c body c'. rewrite post_route_unfold.
    destruct (isEmpty body); [apply Hok|].
    assert (Hfin : final (catch_
                            (then_ (save v (forge c body))
                               (fun m => send (object_json {[ "id" := model_id m ]})))
                            (fun error => then_ (console_error error)
                                            (fun _ => sendStatus 500)) w)
                   = final (save v (forge c body) w)).
    { unfold catch_, then_. now destruct (result (save v (forge c body) w)). }
    rewrite Hfin. destruct (decide (c' = c)) as [->|Hne].
    - apply (save_table_ok v (forge c body)). apply Hok.
    - destruct (save_confined v (forge c body) w) as (_ & _ & _ & _ & Hframe).
      rewrite Hframe by done. apply Hok. }
  destruct req as [id| |body| |id|body|body]; simpl.
  - now rewrite read_only_get_user.
  - now rewrite read_only_get_users.
  - apply (Hpost User).
  - now rewrite read_only_get_posts.
  - now rewrite read_only_get_post.
  - apply (Hpost Post).
  - apply (Hpost Comment).
Qed.

(** ** Creating records through the POST routes *)

(** X9: on a revision that registers the hook, a [POST /user] whose body has
    no string under [password] (none at all, a number, [null]) is answered
    500 after [bcrypt.hash] has refused the value; nothing is written and
    the database is not even asked. *)
Theorem post_user_non_string_password v (body : attrs) (w : world) :
  v <> UserPlain ->
  isEmpty body = false ->
  isNew (forge User body) = true ->
  (forall p, body !! "password" <> Some (JStr p)) ->
  post_user v body w
  = Run (Fulfilled tt) w
      [EvBcryptHash (default JUndefined (body !! "password")) 10;
       EvRaised BcryptArgumentError;
       EvConsoleError BcryptArgumentError;
       EvSend (Status 500)].
Proof.
  intros Hv Hb Hnew Hp. unfold post_user. rewrite Hb.
  unfold catch_, then_.
  rewrite save_hook_rejects; [| done | now destruct v | done].
  cbv zeta. simpl. reflexivity.
Qed.

Lemma post_user_created v (body : attrs) (w : world) :
  driver w = Healthy ->
  isEmpty body = false ->
  isNew (forge User body) = true ->
  admissible User body (rows (users w)) = true ->
  v = UserPlain \/ (exists p, body !! "password" = Some (JStr p)) ->
  exists row,
    responses (events (post_user v body w))
    = [Json (object_json {[ "id" := JNum (serial (users w) + 1) ]})]
    /\ driver (final (post_user v body w)) = Healthy
    /\ users (final (post_user v body w))
       = {| rows := rows (users w) ++ [row]; serial := serial (users w) + 1 |}
    /\ row !! "id" = Some (JNum (serial (users w) + 1))
    /\ (forall k, k ∉ ["id"; "created_at"; "updated_at"; "password"] ->
                  row !! k = body !! k)
    /\ (v = UserPlain -> row !! "password" = body !! "password")
    /\ (forall p, v <> UserPlain -> body !! "password" = Some (JStr p) ->
                  row !! "password"
                  = Some (JStr (hashpw (entropy w (draws w)) 10 p))).
Proof.
  intros Hd Hb Hnew Hadm Hpw.
  assert (Hkeys : forall k, k ∉ ["id"; "created_at"; "updated_at"; "password"] ->
            k <> "id" /\ k <> "created_at" /\ k <> "updated_at" /\ k <> "password").
  { intros k Hk. repeat split; intros ->; apply Hk; compute_done. }
  assert (v = UserPlain \/ v <> UserPlain) as [->|Hv]
    by (destruct v; [right | left | right]; done).
  - pose proof (save_insert_unhooked UserPlain (forge User body) w Hnew eq_refl Hd Hadm)
      as Hrun. simpl in Hrun.
    destruct (post_route_fulfilled UserPlain User body w _ Hb (f_equal result Hrun))
      as (Hresp & Hfin & _). simpl in Hresp, Hfin.
    eexists. rewrite Hresp, Hfin, Hrun. simpl.
    split; [unfold model_id; simpl; now rewrite lookup_insert_eq|].
    split; [done|]. split; [reflexivity|].
    split; [apply lookup_insert_eq|]. split; [|split].
    + intros k Hk. destruct (Hkeys k Hk) as (? & ? & ? & ?).
      now rewrite !lookup_insert_ne by done.
    + intros _. now rewrite !lookup_insert_ne by done.
    + intros p Hv. now destruct Hv.
  - destruct Hpw as [->|[p Hp]]; [done|].
    assert (Hinit : initialize v (cls (forge User body)) = [encryptPassword])
      by now destruct v.
    pose proof (save_insert_hooked v (forge User body) w p Hnew Hinit Hp Hd Hadm)
      as Hrun. simpl in Hrun.
    destruct (post_route_fulfilled v User body w _ Hb (f_equal result Hrun))
      as (Hresp & Hfin & _). simpl in Hresp, Hfin.
    eexists. rewrite Hresp, Hfin, Hrun. simpl.
    split; [unfold model_id; simpl; now rewrite lookup_insert_eq|].
    split; [done|]. split; [reflexivity|].
    split; [apply lookup_insert_eq|]. split; [|split].
    + intros k Hk. destruct (Hkeys k Hk) as (? & ? & ? & ?).
      now rewrite !lookup_insert_ne by done.
    + intros ->. done.
    + intros p' _ Hp'. rewrite Hp in Hp'. simplify_eq.
      rewrite lookup_insert_ne by done. apply lookup_insert_eq.
Qed.

(** X10: the id that a successful [POST /user] returns, written in decimal
    in the path of [GET /user/:id], fetches the record just created: the
    response carries that id and every attribute of the posted body other
    than the timestamps and the password. *)
Theorem post_user_then_get_user v (body : attrs) (w : world) :
  table_ok (users w) ->
  driver w = Healthy ->
  isEmpty body = false ->
  isNew (forge User body) = true ->
  admissible User body (rows (users w)) = true ->
  v = UserPlain \/ (exists p, body !! "password" = Some (JStr p)) ->
  let n := serial (users w) + 1 in
  responses (events (post_user v body w)) = [Json (object_json {[ "id" := JNum n ]})]
  /\ exists sent,
       responses (events (get_user (pretty n) (final (post_user v body w))))
       = [Json sent]
       /\ has_field "id" (JVal (JNum n)) sent
       /\ forall k x, body !! k = Some x ->
                      k ∉ ["id"; "created_at"; "updated_at"; "password"] ->
                      has_field k (JVal x) sent.
Proof.
  intros Hok Hd Hb Hnew Hadm Hpw. cbv zeta.
  destruct (post_user_created v body w Hd Hb Hnew Hadm Hpw)
    as (row & Hresp & Hd' & Husers & Hid & Hkeep & _).
  split; [exact Hresp|].
  assert (Hfind : List.find (row_matches {[ "id" := JStr (pretty (serial (users w) + 1)) ]})
                    (rows (users (final (post_user v body w)))) = Some row).
  { rewrite Husers. simpl. apply find_app_last.
    - intros r Hr. now apply table_ok_fresh_id.
    - rewrite row_matches_singleton, Hid. simpl. now apply bool_decide_eq_true. }
  rewrite (get_user_found _ _ row) by done. simpl.
  eexists. split; [reflexivity|]. split.
  - apply object_json_field. now apply lookup_union_Some_l.
  - intros k x Hk Hnot. apply object_json_field.
    apply lookup_union_Some_l. now rewrite Hkeep.
Qed.

Lemma admissible_insert_inv c (k : string) (x : jsval) (a : attrs) (rs : list attrs) :
  k ∈ columns c -> k ∉ unique_columns c ->
  admissible c (<[k := x]> a) rs = true -> admissible c a rs = true.
Proof.
  intros Hcol Hnu. unfold admissible.
  rewrite !andb_true_iff, !forallb_forall.
  intros [Hc Hu]. split.
  - intros [k' x'] Hin. apply list_elem_of_In, elem_of_map_to_list in Hin. simpl.
    destruct (decide (k' = k)) as [->|Hne]; [now apply bool_decide_eq_true|].
    apply (Hc (k', x')), list_elem_of_In, elem_of_map_to_list.
    now rewrite lookup_insert_ne.
  - intros k' Hin. assert (k <> k') as Hne.
    { intros ->. apply Hnu. now apply list_elem_of_In. }
    specialize (Hu k' Hin). now rewrite lookup_insert_ne in Hu.
Qed.

Lemma admissible_insert_eq c (k : string) (x : jsval) (a : attrs) (rs : list attrs) :
  k ∈ columns c -> k ∉ unique_columns c ->
  admissible c (<[k := x]> a) rs = admissible c a rs.
Proof.
  intros Hcol Hnu.
  destruct (admissible c a rs) eqn:Ha.
  - now apply admissible_insert.
  - destruct (admissible c (<[k := x]> a) rs) eqn:Hi; [|done].
    apply admissible_insert_inv in Hi; [congruence | done..].
Qed.

Lemma save_inadmissible v m w :
  isNew m = true ->
  admissible (cls m) (attributes m) (rows (table_of (cls m) w)) = false ->
  exists e, result (save v m w) = RejectedWith e.
Proof.
  destruct m as [[] a]; simpl; intros Hnew Hadm; save_cases; eauto;
    repeat match goal with
      | H : admissible _ (<[_ := _]> _) _ = true |- _ =>
          rewrite admissible_insert_eq in H by compute_done
      end; congruence.
Qed.

Lemma unknown_column_inadmissible c (body : attrs) (rs : list attrs) k x :
  body !! k = Some x -> k ∉ columns c -> admissible c body rs = false.
Proof.
  intros Hk Hcol. unfold admissible. apply andb_false_iff. left.
  apply not_true_iff_false. rewrite forallb_forall. intros Hall.
  specialize (Hall (k, x)). simpl in Hall.
  apply Hcol. eapply bool_decide_eq_true_1, Hall, list_elem_of_In.
  now apply elem_of_map_to_list.
Qed.

Lemma repeated_unique_inadmissible c (body : attrs) (rs : list attrs) k r :
  k ∈ unique_columns c -> r ∈ rs ->
  is_nullish (body !! k) = false -> r !! k = body !! k ->
  admissible c body rs = false.
Proof.
  intros Hk Hr Hnn Heq. unfold admissible. apply andb_false_iff. right.
  apply not_true_iff_false. rewrite forallb_forall. intros Hall.
  specialize (Hall k (proj1 (list_elem_of_In _ _) Hk)).
  rewrite Hnn in Hall. simpl in Hall. rewrite forallb_forall in Hall.
  specialize (Hall r (proj1 (list_elem_of_In _ _) Hr)).
  apply negb_true_iff, bool_decide_eq_false in Hall. done.
Qed.

(** X11: a POST that would insert a row the table cannot take (the body
    names a column the migrations did not create, or repeats the value of a
    unique column of an existing row) is answered 500 and no table
    changes. *)
Theorem refused_insert_is_500 v c (body : attrs) (w : world) :
  isEmpty body = false ->
  isNew (forge c body) = true ->
  (exists k x, body !! k = Some x /\ k ∉ columns c)
  \/ (exists k r, k ∈ unique_columns c /\ r ∈ rows (table_of c w)
                 /\ is_nullish (body !! k) = false /\ r !! k = body !! k) ->
  responses (events (app v (POST_of c body) w)) = [Status 500]
  /\ same_tables w (final (app v (POST_of c body) w)).
Proof.
  intros Hb Hnew Hbad.
  assert (Hadm : admissible c body (rows (table_of c w)) = false).
  { destruct Hbad as [(k & x & Hk & Hcol)|(k & r & Hk & Hr & Hnn & Heq)].
    - now apply (unknown_column_inadmissible _ _ _ k x).
    - now apply (repeated_unique_inadmissible _ _ _ k r). }
  destruct (save_inadmissible v (forge c body) w Hnew Hadm) as [e He].
  destruct (post_route_rejected v c body w e Hb He) as [-> ->].
  split; [done|]. now apply (save_rejected _ _ _ e).
Qed.

Lemma sync_update_healthy m w :
  driver w = Healthy ->
  existsb (row_matches {[ "id" := model_id m ]}) (rows (table_of (cls m) w)) = true ->
  admissible (cls m) (attributes m)
    (List.filter (fun r => negb (row_matches {[ "id" := model_id m ]} r))
       (rows (table_of (cls m) w))) = true ->
  sync_update m w
  = Run (Fulfilled m)
        (with_table (cls m)
           {| rows := (fun r => if row_matches {[ "id" := model_id m ]} r
                                then delete "id" (attributes m) ∪ r else r)
                        <$> rows (table_of (cls m) w);
              serial := serial (table_of (cls m) w) |} w) [].
Proof.
  intros Hd Hex Hadm. unfold sync_update. rewrite Hd. cbv zeta.
  change (fun r : attrs => row_matches {[ "id" := model_id m ]} r)
    with (row_matches {[ "id" := model_id m ]}).
  rewrite Hex. simpl. now rewrite Hadm.
Qed.

(** X12: a [POST /user] whose body carries the id of an existing row is an
    update, not a creation: the 'creating' hook does not run, [bcrypt.hash]
    is not called, and the row keeps its id and takes the body's
    [password] exactly as it was sent. *)
Theorem post_user_with_id_stores_password_unhashed v (body : attrs) (w : world)
    (id x : jsval) :
  driver w = Healthy ->
  body !! "id" = Some id ->
  is_nullish (Some id) = false ->
  body !! "password" = Some x ->
  (exists r, r ∈ rows (users w) /\ row_matches {[ "id" := id ]} r = true) ->
  admissible User body
    (List.filter (fun r => negb (row_matches {[ "id" := id ]} r)) (rows (users w))) = true ->
  responses (events (post_user v body w)) = [Json (object_json {[ "id" := id ]})]
  /\ hash_calls (events (post_user v body w)) = []
  /\ exists f,
       rows (users (final (post_user v body w))) = f <$> rows (users w)
       /\ forall r, f r !! "id" = r !! "id"
                    /\ (row_matches {[ "id" := id ]} r = true -> f r !! "password" = Some x)
                    /\ (row_matches {[ "id" := id ]} r = false -> f r = r).
Proof.
  intros Hd Hid Hnn Hx [r0 [Hr0 Hhit0]] Hadm.
  assert (Hb : isEmpty body = false).
  { apply bool_decide_eq_false. intros ->. now rewrite lookup_empty in Hid. }
  assert (Hnew : isNew (forge User body) = false).
  { unfold isNew. simpl. now rewrite Hid. }
  set (body' := <["updated_at" := JNum (now w)]> body).
  assert (Hmid : model_id (model_set "updated_at" (JNum (now w)) (forge User body)) = id).
  { unfold model_id, model_set. simpl. rewrite lookup_insert_ne by done. now rewrite Hid. }
  assert (Hrun : save v (forge User body) w
    = Run (Fulfilled (forge User body'))
          (with_table User
             {| rows := (fun r => if row_matches {[ "id" := id ]} r
                                  then delete "id" body' ∪ r else r) <$> rows (users w);
                serial := serial (users w) |} w) []).
  { rewrite save_update by done.
    rewrite sync_update_healthy; rewrite ?Hmid; simpl; [reflexivity | exact Hd | |].
    - apply existsb_exists. exists r0. split; [now apply list_elem_of_In | done].
    - now rewrite admissible_insert_eq by compute_done. }
  destruct (post_route_fulfilled v User body w _ Hb (f_equal result Hrun))
    as (Hresp & Hfin & Hhash). simpl in Hresp, Hfin, Hhash.
  rewrite Hresp, Hhash, Hfin, Hrun. simpl.
  split. { unfold model_id. simpl. unfold body'.
           rewrite lookup_insert_ne by done. now rewrite Hid. }
  split; [done|].
  eexists. split; [reflexivity|]. intros r. split; [apply update_keeps_id|].
  split; intros ->; [|done].
  apply lookup_union_Some_l. rewrite lookup_delete_ne by done.
  unfold body'. now rewrite lookup_insert_ne.
Qed.

(** ** Posts, their author and their comments *)

Lemma then_fulfilled {A C} (p : promise A) (f : A -> promise C) w a w1 evs :
  p w = Run (Fulfilled a) w1 evs ->
  then_ p f w = Run (result (f a w1)) (final (f a w1)) (evs ++ events (f a w1)).
Proof. intros H. unfold then_. now rewrite H. Qed.

Lemma with_related_healthy (p : Model) (w : world) :
  driver w = Healthy ->
  with_related p w
  = let a := default JNull (attributes p !! "author") in
    Run (Fulfilled (JObject
         (((fun kv => (kv.1, JVal kv.2)) <$> map_to_list (delete "author" (attributes p)))
          ++ [("author",
               from_option toJSON (JObject [])
                 ((fun row => forge User (row ∪ {[ "id" := a ]}))
                    <$> List.find (row_matches {[ "id" := a ]}) (rows (users w))));
              ("comments",
               JArray (toJSON <$>
                 List.filter
                   (fun c => row_matches {[ "post_id" := model_id p ]} (attributes c))
                   (forge Comment <$> rows (comments w))))])))
      w [].
Proof.
  intros Hd. unfold with_related.
  erewrite then_fulfilled by (apply fetch_healthy; exact Hd).
  erewrite then_fulfilled by (unfold fetchAll, query; rewrite Hd; reflexivity).
  reflexivity.
Qed.

Lemma get_post_found id w prow :
  driver w = Healthy ->
  List.find (row_matches {[ "id" := JStr id ]}) (rows (posts w)) = Some prow ->
  get_post id w
  = let p := forge Post (prow ∪ {[ "id" := JStr id ]}) in
    let a := default JNull (attributes p !! "author") in
    Run (Fulfilled tt) w
      [EvSend (Json (JObject
         (((fun kv => (kv.1, JVal kv.2)) <$> map_to_list (delete "author" (attributes p)))
          ++ [("author",
               from_option toJSON (JObject [])
                 ((fun row => forge User (row ∪ {[ "id" := a ]}))
                    <$> List.find (row_matches {[ "id" := a ]}) (rows (users w))));
              ("comments",
               JArray (toJSON <$>
                 List.filter
                   (fun c => row_matches {[ "post_id" := model_id p ]} (attributes c))
                   (forge Comment <$> rows (comments w))))])))].
Proof.
  intros Hd Hf.
  assert (Hrel : fetch_withRelated (forge Post {[ "id" := JStr id ]}) w
                 = Run (Fulfilled (Some (default (JVal JNull)
                          (match result (with_related
                                           (forge Post (prow ∪ {[ "id" := JStr id ]})) w) with
                           | Fulfilled j => Some j
                           | RejectedWith _ => None
                           end)))) w []).
  { unfold fetch_withRelated.
    erewrite then_fulfilled by (apply fetch_healthy; exact Hd).
    simpl. rewrite Hf. simpl.
    erewrite then_fulfilled by (apply with_related_healthy; exact Hd).
    rewrite with_related_healthy by done. reflexivity. }
  unfold get_post, catch_.
  erewrite then_fulfilled by exact Hrel.
  rewrite with_related_healthy by done. reflexivity.
Qed.

Lemma get_post_missing id w :
  driver w = Healthy ->
  List.find (row_matches {[ "id" := JStr id ]}) (rows (posts w)) = None ->
  get_post id w = Run (Fulfilled tt) w [EvSend (Status 404)].
Proof.
  intros Hd Hf. unfold get_post, fetch_withRelated, catch_.
  unfold then_. rewrite fetch_healthy by done. simpl. now rewrite Hf.
Qed.

(** X13: [GET /post/:id] answers 404, and nothing else, when no row of the
    posts table has that id, whatever the users and comments tables hold. *)
Theorem get_post_unknown_id_is_404 (id : string) (w : world) :
  driver w = Healthy ->
  (forall r, r ∈ rows (posts w) -> row_matches {[ "id" := JStr id ]} r = false) ->
  get_post id w = Run (Fulfilled tt) w [EvSend (Status 404)].
Proof.
  intros Hd Hnone. apply get_post_missing; [done|]. now apply find_none_iff.
Qed.

(** X14: the post sent by [GET /post/:id] has, under [author], the whole
    record of the user its [author] column points to: every stored
    attribute of that user, the [password] hash included, is a property of
    the embedded object. *)
Theorem get_post_sends_author_record (id : string) (w : world)
    (prow urow : attrs) (a : jsval) :
  driver w = Healthy ->
  List.find (row_matches {[ "id" := JStr id ]}) (rows (posts w)) = Some prow ->
  prow !! "author" = Some a ->
  List.find (row_matches {[ "id" := a ]}) (rows (users w)) = Some urow ->
  exists sent author,
    responses (events (get_post id w)) = [Json sent]
    /\ has_field "author" author sent
    /\ forall k x, urow !! k = Some x -> has_field k (JVal x) author.
Proof.
  intros Hd Hp Ha Hu. rewrite (get_post_found _ _ prow) by done. cbv zeta. simpl.
  assert (Ha' : (prow ∪ {[ "id" := JStr id ]}) !! "author" = Some a)
    by now apply lookup_union_Some_l.
  rewrite Ha'. simpl. rewrite Hu. simpl.
  eexists. eexists. split; [reflexivity|]. split.
  - simpl. apply elem_of_app. right. apply list_elem_of_here.
  - intros k x Hk. apply object_json_field. now apply lookup_union_Some_l.
Qed.

Lemma post_created_unhooked v c (body : attrs) (w : world) :
  initialize v c = [] ->
  driver w = Healthy ->
  isEmpty body = false ->
  isNew (forge c body) = true ->
  admissible c body (rows (table_of c w)) = true ->
  let n := serial (table_of c w) + 1 in
  let row := <["id" := JNum n]>
               (<["created_at" := JNum (now w)]>
                  (<["updated_at" := JNum (now w)]> body)) in
  responses (events (app v (POST_of c body) w)) = [Json (object_json {[ "id" := JNum n ]})]
  /\ final (app v (POST_of c body) w)
     = with_table c {| rows := rows (table_of c w) ++ [row]; serial := n |} w.
Proof.
  intros Hinit Hd Hb Hnew Hadm. cbv zeta.
  pose proof (save_insert_unhooked v (forge c body) w Hnew Hinit Hd Hadm) as Hrun.
  simpl in Hrun.
  destruct (post_route_fulfilled v c body w _ Hb (f_equal result Hrun))
    as (Hresp & Hfin & _).
  rewrite Hresp, Hfin, Hrun. simpl. split; [|done].
  unfold model_id. simpl. now rewrite lookup_insert_eq.
Qed.

(** X15: after a successful [POST /post], [GET /posts] lists the posts that
    were there, in order, followed by the new one, which has the id the
    POST returned and the attributes of the posted body. *)
Theorem post_post_then_get_posts v (body : attrs) (w : world) :
  driver w = Healthy ->
  isEmpty body = false ->
  isNew (forge Post body) = true ->
  admissible Post body (rows (posts w)) = true ->
  let n := serial (posts w) + 1 in
  responses (events (post_post v body w)) = [Json (object_json {[ "id" := JNum n ]})]
  /\ exists row,
       responses (events (get_posts (final (post_post v body w))))
       = [Json (JArray ((object_json <$> rows (posts w)) ++ [object_json row]))]
       /\ row !! "id" = Some (JNum n)
       /\ forall k, k ∉ ["id"; "created_at"; "updated_at"] -> row !! k = body !! k.
Proof.
  intros Hd Hb Hnew Hadm. cbv zeta.
  assert (Hinit : initialize v Post = []) by now destruct v.
  destruct (post_created_unhooked v Post body w Hinit Hd Hb Hnew Hadm) as [Hresp Hfin].
  simpl in Hresp, Hfin. split; [exact Hresp|].
  eexists. rewrite Hfin. split; [|split].
  - unfold get_posts, catch_, then_, fetchAll, query. simpl. rewrite Hd. simpl.
    rewrite <- list_fmap_compose, fmap_app. reflexivity.
  - apply lookup_insert_eq.
  - intros k Hk.
    assert (k <> "id" /\ k <> "created_at" /\ k <> "updated_at") as (? & ? & ?).
    { repeat split; intros ->; apply Hk; compute_done. }
    now rewrite !lookup_insert_ne by done.
Qed.

(** X16: a comment created by [POST /comment] with the id of an existing
    post under [post_id] is listed under [comments] in the answer of
    [GET /post/:id] for that post. *)
Theorem post_comment_then_get_post v (body : attrs) (w : world)
    (id : string) (prow : attrs) (pid x : jsval) :
  driver w = Healthy ->
  isEmpty body = false ->
  isNew (forge Comment body) = true ->
  admissible Comment body (rows (comments w)) = true ->
  List.find (row_matches {[ "id" := JStr id ]}) (rows (posts w)) = Some prow ->
  prow !! "id" = Some pid ->
  body !! "post_id" = Some x ->
  sql_eq pid x = true ->
  exists sent listed row,
    responses (events (get_post id (final (post_comment v body w)))) = [Json sent]
    /\ has_field "comments" (JArray listed) sent
    /\ object_json row ∈ listed
    /\ row !! "id" = Some (JNum (serial (comments w) + 1))
    /\ forall k, k ∉ ["id"; "created_at"; "updated_at"] -> row !! k = body !! k.
Proof.
  intros Hd Hb Hnew Hadm Hp Hpid Hx Heq.
  assert (Hinit : initialize v Comment = []) by now destruct v.
  destruct (post_created_unhooked v Comment body w Hinit Hd Hb Hnew Hadm) as [_ Hfin].
  simpl in Hfin. rewrite Hfin.
  rewrite (get_post_found _ _ prow) by done. cbv zeta. simpl.
  set (row := <["id" := JNum (serial (comments w) + 1)]>
                (<["created_at" := JNum (now w)]>
                   (<["updated_at" := JNum (now w)]> body))).
  eexists. eexists. exists row. split; [reflexivity|]. split; [|split; [|split]].
  - simpl. apply elem_of_app. right.
    apply list_elem_of_further, list_elem_of_here.
  - apply list_elem_of_fmap. exists (forge Comment row). split; [done|].
    apply list_elem_of_In, filter_In. split.
    + apply list_elem_of_In. rewrite fmap_app. apply elem_of_app. right.
      apply list_elem_of_here.
    + simpl. rewrite row_matches_singleton. unfold row.
      rewrite !lookup_insert_ne by done. rewrite Hx.
      unfold model_id. simpl.
      now rewrite (lookup_union_Some_l _ _ _ _ Hpid).
  - apply lookup_insert_eq.
  - intros k Hk.
    assert (k <> "id" /\ k <> "created_at" /\ k <> "updated_at") as (? & ? & ?).
    { repeat split; intros ->; apply Hk; compute_done. }
    unfold row. now rewrite !lookup_insert_ne by done.
Qed.

(** ** Sign-up, then the model's own password check *)

(** X17: a user created through [POST /user] on a hook revision can be
    fetched by username, and on the fetched model [validatePassword] with
    the password that was posted resolves [true] in the [function]
    revision; in the arrow revision it rejects with a TypeError. *)
Theorem created_user_validates (HB : BcryptContract B) v (body : attrs) (w : world)
    (u p : string) :
  v <> UserPlain ->
  driver w = Healthy ->
  isEmpty body = false ->
  isNew (forge User body) = true ->
  admissible User body (rows (users w)) = true ->
  body !! "username" = Some (JStr u) ->
  body !! "password" = Some (JStr p) ->
  List.find (row_matches {[ "username" := JStr u ]}) (rows (users w)) = None ->
  let w' := final (post_user v body w) in
  exists usr q,
    result (fetch (forge User {[ "username" := JStr u ]}) w') = Fulfilled (Some usr)
    /\ validatePassword v usr p = Some q
    /\ result (q w')
       = match v with
         | UserFunction => Fulfilled true
         | _ => RejectedWith (TypeError "Cannot read property 'password' of undefined")
         end.
Proof.
  intros Hv Hd Hb Hnew Hadm Hu Hp Hnone. cbv zeta.
  destruct (post_user_created v body w Hd Hb Hnew Hadm (or_intror (ex_intro _ p Hp)))
    as (row & _ & Hd' & Husers & _ & Hkeep & _ & Hhash).
  specialize (Hhash p Hv Hp).
  assert (Hrow_u : row !! "username" = Some (JStr u)).
  { rewrite Hkeep; [done|]. compute_done. }
  assert (Hfind : List.find (row_matches {[ "username" := JStr u ]})
                    (rows (users (final (post_user v body w)))) = Some row).
  { rewrite Husers. simpl. apply find_app_last.
    - now apply find_none_iff.
    - rewrite row_matches_singleton, Hrow_u. simpl. now apply bool_decide_eq_true. }
  rewrite fetch_healthy by done. simpl. rewrite Hfind. simpl.
  destruct v; [| done |]; eexists; eexists;
    (split; [reflexivity|]); (split; [reflexivity|]).
  - reflexivity.
  - unfold validate_executor. simpl.
    rewrite (lookup_union_Some_l _ _ _ _ Hhash). simpl.
    unfold bcrypt_compare, then_, emit, resolve. simpl.
    now rewrite checkpw_hashpw.
Qed.

End Runs.

(** ** The migrations *)


Lemma migrated_tables (s : schema) :
  s !! "users" = None -> s !! "posts" = None -> s !! "comments" = None ->
  setup_blog.up s
  = <["comments" := setup_blog.comments_columns]>
      (<["posts" := setup_blog.posts_columns]>
         (<["users" := setup_blog.users_columns]> s)).
Proof.
  intros Hu Hp Hc. unfold setup_blog.up, createTableIfNotExists.
  rewrite Hu. rewrite lookup_insert_ne by done. rewrite Hp.
  rewrite !lookup_insert_ne by done. now rewrite Hc.
Qed.

(** X19: on a schema without the three tables, the two migrations in order
    give each model's table exactly the columns the store model assumes
    ([columns]), and exactly the unique columns it checks
    ([unique_columns]). *)
Theorem migrations_build_the_columns (s : schema) :
  s !! "users" = None -> s !! "posts" = None -> s !! "comments" = None ->
  exists s',
    add_password_field.up (setup_blog.up s) = Some s'
    /\ forall c, exists cols,
         s' !! tableName c = Some cols
         /\ col_name <$> cols = columns c
         /\ col_name <$> List.filter col_unique cols = unique_columns c.
Proof.
  intros Hu Hp Hc. rewrite migrated_tables by done.
  unfold add_password_field.up, add_column.
  rewrite !lookup_insert_ne by done. rewrite lookup_insert_eq.
  rewrite bool_decide_eq_false_2 by compute_done.
  eexists. split; [reflexivity|]. intros []; simpl.
  - rewrite lookup_insert_eq. eexists. split; [reflexivity|]. now split.
  - rewrite lookup_insert_ne by done. rewrite lookup_insert_ne by done.
    rewrite lookup_insert_eq. eexists. split; [reflexivity|]. now split.
  - rewrite lookup_insert_ne by done. rewrite lookup_insert_eq.
    eexists. split; [reflexivity|]. now split.
Qed.

Lemma dropTable_insert (name : string) (cols : list column) (s : schema) :
  s !! name = None -> dropTable name (<[name := cols]> s) = Some s.
Proof.
  intros Hn. unfold dropTable. rewrite lookup_insert_eq.
  rewrite delete_insert_eq. now rewrite delete_id.
Qed.

(** X20: [setup_blog.down] undoes [setup_blog.up] on a schema that had none
    of the three tables. *)
Theorem setup_blog_down_up (s : schema) :
  s !! "users" = None -> s !! "posts" = None -> s !! "comments" = None ->
  setup_blog.down (setup_blog.up s) = Some s.
Proof.
  intros Hu Hp Hc. rewrite migrated_tables by done.
  unfold setup_blog.down.
  rewrite dropTable_insert by (now rewrite !lookup_insert_ne). simpl.
  rewrite dropTable_insert by (now rewrite !lookup_insert_ne). simpl.
  now rewrite dropTable_insert.
Qed.

(** X21: where the users table exists without a [password] column, the
    password migration's [up] adds it and its [down] gives back the schema
    as it was; [up] cannot be applied a second time. *)
Theorem add_password_up_down (s : schema) (cols : list column) :
  s !! "users" = Some cols ->
  "password" ∉ col_name <$> cols ->
  exists s',
    add_password_field.up s = Some s'
    /\ add_password_field.down s' = Some s
    /\ add_password_field.up s' = None.
Proof.
  intros Hu Hno. unfold add_password_field.up, add_column. rewrite Hu.
  rewrite bool_decide_eq_false_2 by done.
  eexists. split; [reflexivity|].
  assert (Hin : "password" ∈ col_name <$> (cols ++ [string_ "password" 128])%list).
  { rewrite fmap_app. apply elem_of_app. right. simpl. apply list_elem_of_here. }
  split.
  - unfold add_password_field.down, dropColumn. rewrite lookup_insert_eq.
    rewrite bool_decide_eq_true_2 by done. f_equal.
    rewrite insert_insert_eq. apply insert_id. rewrite Hu. f_equal.
    rewrite List.filter_app. simpl. rewrite app_nil_r.
    clear Hu Hin. induction cols as [|c cols IH]; [done|]. simpl.
    rewrite fmap_cons in Hno. apply not_elem_of_cons in Hno as [Hc Hno].
    rewrite bool_decide_eq_false_2 by (intros Heq; now apply Hc).
    simpl. now rewrite <- IH.
  - rewrite lookup_insert_eq. now rewrite bool_decide_eq_true_2.
Qed.

(** * The further properties on concrete inputs *)

Lemma fresh_world_ok : world_ok fresh_world.
Proof. intros []; split; simpl; constructor. Qed.

Lemma blog_world_posts : rows (posts blog_world) = [hello_row].
Proof. vm_compute. reflexivity. Qed.

Lemma blog_world_users : rows (users blog_world) = [alice_row].
Proof. vm_compute. reflexivity. Qed.

(** X3 on a sign-up. *)
Lemma routes_respond_once_witness :
  length (responses (events (app (B := demo_bcrypt) UserFunction
                               (POST_user bob_body) alice_world))) = 1%nat.
Proof.
  apply (routes_respond_once (B := demo_bcrypt) UserFunction (POST_user bob_body)
           alice_world).
  discriminate.
Defined.

(** X4 on a reachable and on an unreachable database. *)
Lemma get_users_responds_iff_healthy_witness :
  responses (events (get_users alice_world))
  = [Json (JArray (object_json <$> rows (users alice_world)))]
  /\ responses (events (get_users broken_world)) = [].
Proof.
  split.
  - apply (get_users_responds_iff_healthy alice_world). reflexivity.
  - apply (get_users_responds_iff_healthy broken_world) with
      (e := DriverError "connection refused").
    reflexivity.
Defined.

(** X6 on [GET /post/1] and on a sign-up, with the connection lost. *)
Lemma failing_database_responses_witness :
  (responses (events (app (B := demo_bcrypt) UserFunction (GET_post "1") broken_world))
   = [Status 500]
   /\ same_tables broken_world
        (final (app (B := demo_bcrypt) UserFunction (GET_post "1") broken_world)))
  /\ (responses (events (app (B := demo_bcrypt) UserFunction (POST_user bob_body)
                           broken_world))
      = [Status 500]
      /\ same_tables broken_world
           (final (app (B := demo_bcrypt) UserFunction (POST_user bob_body)
                     broken_world))).
Proof.
  split.
  - apply (failing_database_responses (B := demo_bcrypt) UserFunction (GET_post "1")
             broken_world (DriverError "connection refused")).
    reflexivity.
  - apply (failing_database_responses (B := demo_bcrypt) UserFunction
             (POST_user bob_body) broken_world (DriverError "connection refused")).
    reflexivity.
Defined.

(** X8 from the empty database to alice's. *)
Lemma requests_keep_ids_unique_witness :
  world_ok (final (app (B := demo_bcrypt) UserFunction (POST_user alice_body) fresh_world)).
Proof.
  apply (requests_keep_ids_unique (B := demo_bcrypt) UserFunction
           (POST_user alice_body) fresh_world).
  intros []; split; simpl; constructor.
Defined.

(** X9 on a body with a username only. *)
Lemma post_user_non_string_password_witness :
  post_user (B := demo_bcrypt) UserArrow carol_body alice_world
  = Run (Fulfilled tt) alice_world
      [EvBcryptHash (default JUndefined (carol_body !! "password")) 10;
       EvRaised BcryptArgumentError;
       EvConsoleError BcryptArgumentError;
       EvSend (Status 500)].
Proof.
  apply (post_user_non_string_password (B := demo_bcrypt) UserArrow carol_body
           alice_world).
  - discriminate.
  - vm_compute. reflexivity.
  - vm_compute. reflexivity.
  - intros p. vm_compute. discriminate.
Defined.

(** X10: bob signs up on the empty database and is fetched as user 1. *)
Lemma post_user_then_get_user_witness :
  responses (events (post_user (B := demo_bcrypt) UserFunction bob_body fresh_world))
  = [Json (object_json {[ "id" := JNum (serial (users fresh_world) + 1) ]})]
  /\ exists sent,
       responses (events (get_user (pretty (serial (users fresh_world) + 1))
                            (final (post_user (B := demo_bcrypt) UserFunction bob_body
                                      fresh_world))))
       = [Json sent]
       /\ has_field "id" (JVal (JNum (serial (users fresh_world) + 1))) sent
       /\ forall k x, bob_body !! k = Some x ->
                      k ∉ ["id"; "created_at"; "updated_at"; "password"] ->
                      has_field k (JVal x) sent.
Proof.
  apply (post_user_then_get_user (B := demo_bcrypt) UserFunction bob_body fresh_world).
  - split; simpl; constructor.
  - reflexivity.
  - vm_compute. reflexivity.
  - vm_compute. reflexivity.
  - vm_compute. reflexivity.
  - right. exists "plain123". vm_compute. reflexivity.
Defined.

(** X11: alice's username a second time. *)
Lemma refused_insert_is_500_witness :
  responses (events (app (B := demo_bcrypt) UserFunction (POST_of User alice_body)
                       alice_world)) = [Status 500]
  /\ same_tables alice_world
       (final (app (B := demo_bcrypt) UserFunction (POST_of User alice_body) alice_world)).
Proof.
  apply (refused_insert_is_500 (B := demo_bcrypt) UserFunction User alice_body alice_world).
  - vm_compute. reflexivity.
  - vm_compute. reflexivity.
  - right. exists "username", alice_row. split; [|split; [|split]].
    + compute_done.
    + simpl. rewrite alice_world_users. apply list_elem_of_here.
    + vm_compute. reflexivity.
    + vm_compute. reflexivity.
Defined.

(** X12: a second POST with alice's id replaces her hash by a plaintext. *)
Lemma post_user_with_id_stores_password_unhashed_witness :
  responses (events (post_user (B := demo_bcrypt) UserFunction takeover_body alice_world))
  = [Json (object_json {[ "id" := JNum 1 ]})]
  /\ hash_calls (events (post_user (B := demo_bcrypt) UserFunction takeover_body
                           alice_world)) = []
  /\ exists f,
       rows (users (final (post_user (B := demo_bcrypt) UserFunction takeover_body
                             alice_world)))
       = f <$> rows (users alice_world)
       /\ forall r, f r !! "id" = r !! "id"
                    /\ (row_matches {[ "id" := JNum 1 ]} r = true ->
                        f r !! "password" = Some (JStr "hunter2"))
                    /\ (row_matches {[ "id" := JNum 1 ]} r = false -> f r = r).
Proof.
  apply (post_user_with_id_stores_password_unhashed (B := demo_bcrypt) UserFunction
           takeover_body alice_world (JNum 1) (JStr "hunter2")).
  - reflexivity.
  - vm_compute. reflexivity.
  - reflexivity.
  - vm_compute. reflexivity.
  - exists alice_row. split.
    + rewrite alice_world_users. apply list_elem_of_here.
    + vm_compute. reflexivity.
  - vm_compute. reflexivity.
Defined.

(** X13: no post yet. *)
Lemma get_post_unknown_id_is_404_witness :
  get_post "1" alice_world = Run (Fulfilled tt) alice_world [EvSend (Status 404)].
Proof.
  apply (get_post_unknown_id_is_404 "1" alice_world).
  - reflexivity.
  - intros r Hr. vm_compute in Hr. inversion Hr.
Defined.

(** X14: alice's post comes with alice's row. *)
Lemma get_post_sends_author_record_witness :
  exists sent author,
    responses (events (get_post "1" blog_world)) = [Json sent]
    /\ has_field "author" author sent
    /\ forall k x, alice_row !! k = Some x -> has_field k (JVal x) author.
Proof.
  apply (get_post_sends_author_record "1" blog_world hello_row alice_row (JNum 1)).
  - reflexivity.
  - vm_compute. reflexivity.
  - vm_compute. reflexivity.
  - vm_compute. reflexivity.
Defined.

(** X15: the first post. *)
Lemma post_post_then_get_posts_witness :
  responses (events (post_post (B := demo_bcrypt) UserFunction hello_body alice_world))
  = [Json (object_json {[ "id" := JNum (serial (posts alice_world) + 1) ]})]
  /\ exists row,
       responses (events (get_posts (final (post_post (B := demo_bcrypt) UserFunction
                                              hello_body alice_world))))
       = [Json (JArray ((object_json <$> rows (posts alice_world)) ++ [object_json row]))]
       /\ row !! "id" = Some (JNum (serial (posts alice_world) + 1))
       /\ forall k, k ∉ ["id"; "created_at"; "updated_at"] -> row !! k = hello_body !! k.
Proof.
  apply (post_post_then_get_posts (B := demo_bcrypt) UserFunction hello_body alice_world).
  - reflexivity.
  - vm_compute. reflexivity.
  - vm_compute. reflexivity.
  - vm_compute. reflexivity.
Defined.

(** X16: a comment on alice's post. *)
Lemma post_comment_then_get_post_witness :
  exists sent listed row,
    responses (events (get_post "1"
                         (final (post_comment (B := demo_bcrypt) UserFunction nice_body
                                   blog_world))))
    = [Json sent]
    /\ has_field "comments" (JArray listed) sent
    /\ object_json row ∈ listed
    /\ row !! "id" = Some (JNum (serial (comments blog_world) + 1))
    /\ forall k, k ∉ ["id"; "created_at"; "updated_at"] -> row !! k = nice_body !! k.
Proof.
  apply (post_comment_then_get_post (B := demo_bcrypt) UserFunction nice_body blog_world
           "1" hello_row (JNum 1) (JNum 1)).
  - reflexivity.
  - vm_compute. reflexivity.
  - vm_compute. reflexivity.
  - vm_compute. reflexivity.
  - vm_compute. reflexivity.
  - vm_compute. reflexivity.
  - vm_compute. reflexivity.
  - vm_compute. reflexivity.
Defined.

(** X17: bob signs up and his password is accepted for his record. *)
Lemma created_user_validates_witness :
  exists usr q,
    result (fetch (forge User {[ "username" := JStr "bob" ]})
              (final (post_user (B := demo_bcrypt) UserFunction bob_body fresh_world)))
    = Fulfilled (Some usr)
    /\ validatePassword (B := demo_bcrypt) UserFunction usr "plain123" = Some q
    /\ result (q (final (post_user (B := demo_bcrypt) UserFunction bob_body fresh_world)))
       = Fulfilled true.
Proof.
  apply (created_user_validates (B := demo_bcrypt) demo_bcrypt_contract UserFunction
           bob_body fresh_world "bob" "plain123").
  - discriminate.
  - reflexivity.
  - vm_compute. reflexivity.
  - vm_compute. reflexivity.
  - vm_compute. reflexivity.
  - vm_compute. reflexivity.
  - vm_compute. reflexivity.
  - reflexivity.
Defined.


(** X19 on that database. *)
Lemma migrations_build_the_columns_witness :
  exists s',
    add_password_field.up (setup_blog.up legacy_schema) = Some s'
    /\ forall c, exists cols,
         s' !! tableName c = Some cols
         /\ col_name <$> cols = columns c
         /\ col_name <$> List.filter col_unique cols = unique_columns c.
Proof.
  apply (migrations_build_the_columns legacy_schema); vm_compute; reflexivity.
Defined.

(** X20 on that database. *)
Lemma setup_blog_down_up_witness :
  setup_blog.down (setup_blog.up legacy_schema) = Some legacy_schema.
Proof.
  apply (setup_blog_down_up legacy_schema); vm_compute; reflexivity.
Defined.

(** X21 on the schema the first migration leaves. *)
Lemma add_password_up_down_witness :
  exists s',
    add_password_field.up (setup_blog.up legacy_schema) = Some s'
    /\ add_password_field.down s' = Some (setup_blog.up legacy_schema)
    /\ add_password_field.up s' = None.
Proof.
  apply (add_password_up_down (setup_blog.up legacy_schema) setup_blog.users_columns).
  - vm_compute. reflexivity.
  - compute_done.
Defined.
